(** * The calorie tracker (LAB-1/lab_1.py) and the library inventory
      (Lab-3/lab_3.py): a shallow embedding and its properties

    Both programs are embedded as functions over explicit state.

    - A Python [str] is a [string]: one [ascii] per code point, for the code
      points below U+0100.  On that alphabet [strip], [lower], [in] and
      [int] below agree with CPython.  The only text of the sources outside
      it is the dash U+2014 of two messages, which the literals keep as the
      bytes of its UTF-8 encoding; no operation looks inside those messages.
    - A Python [int] is a [Z] (CPython's configurable cap on the length of
      decimal conversions is an interpreter setting, not part of the
      programs).
    - Exceptions are values of a [result] type; [try]/[except] is a match.
    - A list of objects is a list of records, one object per position; a
      reference into it is a position. *)

From Equations Require Import Equations.
From Stdlib Require Import ZArith Ascii String Lia.
From stdpp Require Import base option list gmap strings functions pretty.

Set Warnings "-register-all".

(** ** Python built-ins *)

Module Py.

Definition ord (c : ascii) : N := N_of_ascii c.

(** [str.isspace] on one code point below U+0100. *)
Definition isspace (c : ascii) : bool :=
  let n := ord c in
  ((9 <=? n) && (n <=? 13) || (28 <=? n) && (n <=? 31)
   || (n =? 32) || (n =? 133) || (n =? 160))%N.

Fixpoint lstrip (s : string) : string :=
  match s with
  | EmptyString => EmptyString
  | String c s' => if isspace c then lstrip s' else s
  end.

Fixpoint rstrip (s : string) : string :=
  match s with
  | EmptyString => EmptyString
  | String c s' =>
      match rstrip s' with
      | EmptyString => if isspace c then EmptyString else String c EmptyString
      | r => String c r
      end
  end.

(** [s.strip()] *)
Definition strip (s : string) : string := rstrip (lstrip s).

(** [str.lower] on one code point: A-Z and the capitals of U+00C0-U+00DE
    (the multiplication sign U+00D7 apart) move up by 32. *)
Definition lower_char (c : ascii) : ascii :=
  let n := ord c in
  if ((65 <=? n) && (n <=? 90)
      || (192 <=? n) && (n <=? 222) && negb (n =? 215))%N
  then ascii_of_N (n + 32) else c.

(** [s.lower()] *)
Fixpoint lower (s : string) : string :=
  match s with
  | EmptyString => EmptyString
  | String c s' => String (lower_char c) (lower s')
  end.

(** [q in t] on two strings: [q] occurs in [t] as a contiguous run. *)
Fixpoint contains (q t : string) : bool :=
  String.prefix q t
  || match t with
     | EmptyString => false
     | String _ t' => contains q t'
     end.

(** [str(n)] for an [int]. *)
Definition str_int (n : Z) : string := pretty n.
Definition str_len (n : nat) : string := pretty n.


(** The white space [int()] skips at both ends of its argument. *)
Definition int_space (c : ascii) : bool :=
  let n := ord c in
  ((9 <=? n) && (n <=? 13) || (n =? 32) || (n =? 133) || (n =? 160))%N.

Fixpoint int_lskip (s : string) : string :=
  match s with
  | EmptyString => EmptyString
  | String c s' => if int_space c then int_lskip s' else s
  end.

Fixpoint int_rskip (s : string) : string :=
  match s with
  | EmptyString => EmptyString
  | String c s' =>
      match int_rskip s' with
      | EmptyString => if int_space c then EmptyString else String c EmptyString
      | r => String c r
      end
  end.

Definition digit (c : ascii) : option Z :=
  let n := ord c in
  if ((48 <=? n) && (n <=? 57))%N then Some (Z.of_N n - 48)%Z else None.

(** Decimal digits, single underscores allowed between two digits.
    [after_digit] tells whether the previous character was a digit. *)
Fixpoint int_digits (s : string) (acc : Z) (after_digit : bool) : option Z :=
  match s with
  | EmptyString => if after_digit then Some acc else None
  | String c s' =>
      match digit c with
      | Some d => int_digits s' (10 * acc + d)%Z true
      | None =>
          if (ord c =? 95)%N && after_digit then int_digits s' acc false
          else None
      end
  end.

(** [int(s)] on a string: [None] stands for the [ValueError]
    "invalid literal for int() with base 10". *)
Definition int (s : string) : option Z :=
  match int_rskip (int_lskip s) with
  | String "+" r => int_digits r 0 false
  | String "-" r => Z.opp <$> int_digits r 0 false
  | t => int_digits t 0 false
  end.

End Py.


(** ** LAB-1/lab_1.py: the calorie tracker *)

Module Lab1.

Inductive exception :=
| ValueError (literal : string)  (* invalid literal for int() with base 10 *)
| EOFError.                      (* input() at the end of the input *)

(** How the program ends: the [break] of option 4, or an exception that
    nothing catches. *)
Inductive status := Exited | Uncaught (e : exception).

(** The two module-level variables. *)
Record state := mkState { calories : list Z; total : Z }.

Definition initial : state := {| calories := []; total := 0 |}.

Definition nl : string := String (ascii_of_N 10) EmptyString.

(** What [print] writes for its arguments, already converted by [str]:
    the arguments, a space between two of them, and a newline. *)
Definition print (args : list string) : string :=
  String.concat " " args +:+ nl.

Definition menu : list string :=
  [ print [nl +:+ "Menu:"];
    print ["1. Add a meal (enter calories)"];
    print ["2. View all meals"];
    print ["3. View total calories"];
    print ["4. Exit"];
    "Enter your choice (1-4): " ].

(** One pass through the body of [while True]: what it writes, and either
    the state and the input left for the next pass, or the end. *)
Inductive pass :=
| Continue (out : list string) (st : state) (rest : list string)
| Stop (out : list string) (s : status).

Definition iteration (st : state) (inputs : list string) : pass :=
  match inputs with
  | [] => Stop menu (Uncaught EOFError)
  | choice :: rest =>
      if decide (choice = "1") then
        match rest with
        | [] => Stop (menu ++ ["Enter meal name: "]) (Uncaught EOFError)
        | name :: rest1 =>
            let asked := menu ++ ["Enter meal name: "; "Enter calories for the meal: "] in
            match rest1 with
            | [] => Stop asked (Uncaught EOFError)
            | text :: rest2 =>
                match Py.int text with
                | None => Stop asked (Uncaught (ValueError text))
                | Some cal =>
                    Continue (asked ++ [print ["Meal added successfully!"]])
                      {| calories := calories st ++ [cal];
                         total := total st + cal |}
                      rest2
                end
            end
        end
      else if decide (choice = "2") then
        if decide (List.length (calories st) = 0) then
          Continue (menu ++ [print ["No meals recorded yet."]]) st rest
        else
          Continue
            (menu ++ print ["Your calorie entries:"]
               :: imap (fun i c =>
                          print ["Meal"; Py.str_len (i + 1); ":"; Py.str_int c; "calories"])
                    (calories st))
            st rest
      else if decide (choice = "3") then
        Continue
          (menu ++ [print ["Total calories consumed today:"; Py.str_int (total st)]])
          st rest
      else if decide (choice = "4") then
        Stop (menu ++ [print ["Exiting the app. Stay healthy!"]]) Exited
      else
        Continue (menu ++ [print ["Invalid choice, please try again."]]) st rest
  end.

Lemma iteration_consumes st inputs out st' rest :
  iteration st inputs = Continue out st' rest -> List.length rest < List.length inputs.
Proof.
  unfold iteration. intros H.
  repeat (case_match || case_decide); simplify_eq; simpl; lia.
Qed.

Definition inspect {A} (a : A) : {b : A | a = b} := exist _ a eq_refl.

(** The [while True] loop: what is written and how the program ends. *)
Equations? loop (st : state) (inputs : list string) : list string * status
  by wf (List.length inputs) lt :=
  loop st inputs with inspect (iteration st inputs) := {
    | exist _ (Continue out st' rest) _ =>
        let r := loop st' rest in (out ++ r.1, r.2)
    | exist _ (Stop out s) _ => (out, s) }.
Proof. eapply iteration_consumes; eassumption. Qed.

(** The whole script on the lines typed at it. *)
Definition main (inputs : list string) : list string * status :=
  let r := loop initial inputs in
  (print ["Welcome to the Calorie Tracking App!"] :: r.1, r.2).

(** The states the loop is entered with, and the input still unread
    there, when the script runs on [inputs]. *)
Inductive loop_head (inputs : list string) : state -> list string -> Prop :=
| head_first : loop_head inputs initial inputs
| head_next st unread out st' rest :
    loop_head inputs st unread ->
    iteration st unread = Continue out st' rest ->
    loop_head inputs st' rest.

End Lab1.

(** ** Lab-3/lab_3.py: the library inventory *)

Module Lab3.

(** The exceptions the module can see; [str(e)] is the message. *)
Inductive exception :=
| ValueError (msg : string)
| AttributeError (msg : string)
| JSONDecodeError (msg : string)
| OSError (msg : string).

Definition str_exc (e : exception) : string :=
  match e with
  | ValueError m | AttributeError m | JSONDecodeError m | OSError m => m
  end.

Inductive result (A : Type) :=
| Ok (a : A)
| Raise (e : exception).
Arguments Ok {A} a.
Arguments Raise {A} e.

Definition bind {A B} (r : result A) (k : A -> result B) : result B :=
  match r with
  | Ok a => k a
  | Raise e => Raise e
  end.

Notation "x <- r ;; k" := (bind r (fun x => k))
  (at level 100, r at next level, right associativity, only parsing).

(** A list comprehension over a body that can raise: left to right, the
    first exception ends it. *)
Fixpoint comprehension {A B} (f : A -> result B) (l : list A) : result (list B) :=
  match l with
  | [] => Ok []
  | a :: l' => b <- f a ;; bs <- comprehension f l' ;; Ok (b :: bs)
  end.

(** *** Book *)

Record Book := mkBook {
  title : string;
  author : string;
  isbn : string;
  status : string
}.

Definition __post_init__ (self : Book) : Book :=
  {| title := Py.strip (title self);
     author := Py.strip (author self);
     isbn := Py.strip (isbn self);
     status := if decide (status self ∉ ["available"; "issued"])
               then "available" else status self |}.

(** [Book(title, author, isbn, status)]: the generated [__init__] stores
    the four arguments and calls [__post_init__]. *)
Definition Book_new (title author isbn status : string) : Book :=
  __post_init__ (mkBook title author isbn status).

(** [Book(title, author, isbn)], with the default of the field. *)
Definition Book_new3 (title author isbn : string) : Book :=
  Book_new title author isbn "available".

Definition __str__ (self : Book) : string :=
  title self +:+ " — " +:+ author self +:+ " (ISBN: " +:+ isbn self
  +:+ ") [" +:+ status self +:+ "]".

(** What [json.load] returns, and what [json.dump] takes. *)
Inductive json :=
| JNone
| JBool (b : bool)
| JInt (n : Z)
| JFloat (literal : string)
| JStr (s : string)
| JList (l : list json)
| JDict (d : gmap string json).

Definition type_name (v : json) : string :=
  match v with
  | JNone => "NoneType"
  | JBool _ => "bool"
  | JInt _ => "int"
  | JFloat _ => "float"
  | JStr _ => "str"
  | JList _ => "list"
  | JDict _ => "dict"
  end.

Definition no_attribute {A} (v : json) (attr : string) : result A :=
  Raise (AttributeError
           ("'" +:+ type_name v +:+ "' object has no attribute '" +:+ attr +:+ "'")).

(** [data.get(key, default)] *)
Definition get (data : json) (key : string) (dflt : json) : result json :=
  match data with
  | JDict d => Ok (default dflt (d !! key))
  | _ => no_attribute data "get"
  end.

(** [v.strip()] *)
Definition strip (v : json) : result string :=
  match v with
  | JStr s => Ok (Py.strip s)
  | _ => no_attribute v "strip"
  end.

Definition to_dict (self : Book) : json :=
  JDict (<["title" := JStr (title self)]>
         (<["author" := JStr (author self)]>
          (<["isbn" := JStr (isbn self)]>
           (<["status" := JStr (status self)]> ∅)))).

Definition from_dict (data : json) : result Book :=
  t <- (v <- get data "title" (JStr "") ;; strip v) ;;
  a <- (v <- get data "author" (JStr "") ;; strip v) ;;
  i <- (v <- get data "isbn" (JStr "") ;; strip v) ;;
  s <- (v <- get data "status" (JStr "available") ;; strip v) ;;
  Ok (Book_new t a i s).

Definition is_available (self : Book) : bool :=
  bool_decide (status self = "available").

Definition set_status (self : Book) (s : string) : Book :=
  {| title := title self; author := author self; isbn := isbn self; status := s |}.

(** [issue] and [return_book]: the returned flag and the object after
    the call. *)
Definition issue (self : Book) : bool * Book :=
  if is_available self then (true, set_status self "issued") else (false, self).

Definition return_book (self : Book) : bool * Book :=
  if negb (is_available self) then (true, set_status self "available")
  else (false, self).

(** *** The file system and the log *)

(** What is in a file: a JSON document, given by the value [json.load]
    returns for it, or text [json.load] rejects with the given message.
    That [json.load] gives back the lists, dicts and strings [json.dump]
    wrote is the contract of the [json] module. *)
Inductive file_text :=
| Document (data : json)
| NotJson (msg : string).

Inductive reading :=
| NoFile                       (* [exists()] is false *)
| Holds (text : file_text)     (* [open("r")] succeeds *)
| ReadFails (msg : string).    (* the path exists, [open("r")] raises *)

(** A path: what reading it gives, and the [OSError] that making its
    parent directory or opening it for writing raises, if any. *)
Record node := mkNode { on_read : reading; on_write : option string }.

Definition filesystem := string -> node.

Inductive level := INFO | ERROR.
Definition log_record : Type := level * string.

(** *** LibraryInventory *)

Record LibraryInventory := mkInventory {
  catalog_path : string;
  books : list Book
}.

Definition set_books (self : LibraryInventory) (bs : list Book) : LibraryInventory :=
  {| catalog_path := catalog_path self; books := bs |}.

Definition __init__ (catalog_path : string) : LibraryInventory :=
  {| catalog_path := catalog_path; books := [] |}.

(** The body of the [try] of [load]: the new value of [self.books] and
    the records logged, or the exception raised before any assignment. *)
Definition load_try (fs : filesystem) (self : LibraryInventory)
  : result (list Book * list log_record) :=
  match on_read (fs (catalog_path self)) with
  | NoFile =>
      Ok ([], [(INFO, "Catalog file not found — creating empty catalog.")])
  | ReadFails msg => Raise (OSError msg)
  | Holds (NotJson msg) => Raise (JSONDecodeError msg)
  | Holds (Document data) =>
      match data with
      | JList entries =>
          bs <- comprehension from_dict entries ;;
          Ok (bs, [(INFO, "Loaded " +:+ Py.str_len (List.length bs)
                            +:+ " books from catalog.")])
      | _ => Raise (ValueError "Catalog JSON root must be a list")
      end
  end.

(** [load]: the [except Exception] clause catches whatever the body
    raises. *)
Definition load (fs : filesystem) (self : LibraryInventory)
  : result (LibraryInventory * list log_record) :=
  match load_try fs self with
  | Ok (bs, logs) => Ok (set_books self bs, logs)
  | Raise e =>
      Ok (set_books self [], [(ERROR, "Failed to load catalog: " +:+ str_exc e)])
  end.

Definition save_try (fs : filesystem) (self : LibraryInventory)
  : result (filesystem * list log_record) :=
  match on_write (fs (catalog_path self)) with
  | Some msg => Raise (OSError msg)
  | None =>
      Ok (<[catalog_path self :=
              {| on_read := Holds (Document (JList (to_dict <$> books self)));
                 on_write := None |}]> fs,
          [(INFO, "Saved " +:+ Py.str_len (List.length (books self))
                    +:+ " books to catalog.")])
  end.

Definition save (fs : filesystem) (self : LibraryInventory)
  : result (filesystem * list log_record) :=
  match save_try fs self with
  | Ok r => Ok r
  | Raise e => Ok (fs, [(ERROR, "Failed to save catalog: " +:+ str_exc e)])
  end.

(** [search_by_isbn]: the first book whose ISBN is the trimmed argument,
    with its position in [self.books]; [None] when there is none. *)
Definition search_by_isbn (self : LibraryInventory) (isbn_ : string)
  : option (nat * Book) :=
  let s := Py.strip isbn_ in
  list_find (fun b => isbn b = s) (books self).

(** [add_book]: the result of the call and the inventory after it. *)
Definition add_book (self : LibraryInventory) (book : Book)
  : result unit * LibraryInventory :=
  match search_by_isbn self (isbn book) with
  | Some _ => (Raise (ValueError "A book with this ISBN already exists."), self)
  | None => (Ok tt, set_books self (books self ++ [book]))
  end.

Definition search_by_title (self : LibraryInventory) (title_query : string)
  : list Book :=
  let q := Py.lower (Py.strip title_query) in
  List.filter (fun b => Py.contains q (Py.lower (title b))) (books self).

Definition display_all (self : LibraryInventory) : list string :=
  __str__ <$> books self.

Definition issue_book_by_isbn (self : LibraryInventory) (isbn_ : string)
  : bool * LibraryInventory :=
  match search_by_isbn self isbn_ with
  | None => (false, self)
  | Some (i, book) =>
      let r := issue book in (r.1, set_books self (<[i := r.2]> (books self)))
  end.

Definition return_book_by_isbn (self : LibraryInventory) (isbn_ : string)
  : bool * LibraryInventory :=
  match search_by_isbn self isbn_ with
  | None => (false, self)
  | Some (i, book) =>
      let r := return_book book in (r.1, set_books self (<[i := r.2]> (books self)))
  end.

(** *** Sequences of operations *)

(** The process: the files, the inventory object and the log. *)
Record process := mkProcess {
  files : filesystem;
  inventory : LibraryInventory;
  logged : list log_record
}.

(** The calls a client such as [main] makes on the inventory.  [AddBook]
    builds the book with the constructor and hands it to [add_book]. *)
Inductive op :=
| Load
| Save
| AddBook (title author isbn status : string)
| IssueBook (isbn : string)
| ReturnBook (isbn : string).

Definition exec (p : process) (o : op) : process :=
  match o with
  | Load =>
      match load (files p) (inventory p) with
      | Ok (inv, logs) =>
          {| files := files p; inventory := inv; logged := logged p ++ logs |}
      | Raise _ => p
      end
  | Save =>
      match save (files p) (inventory p) with
      | Ok (fs, logs) =>
          {| files := fs; inventory := inventory p; logged := logged p ++ logs |}
      | Raise _ => p
      end
  | AddBook t a i s =>
      {| files := files p;
         inventory := (add_book (inventory p) (Book_new t a i s)).2;
         logged := logged p |}
  | IssueBook i =>
      {| files := files p;
         inventory := (issue_book_by_isbn (inventory p) i).2;
         logged := logged p |}
  | ReturnBook i =>
      {| files := files p;
         inventory := (return_book_by_isbn (inventory p) i).2;
         logged := logged p |}
  end.

Definition run (p : process) (ops : list op) : process :=
  fold_left exec ops p.

(** A fresh process: [LibraryInventory(path)] over the files [fs]. *)
Definition start (fs : filesystem) (path : string) : process :=
  {| files := fs; inventory := __init__ path; logged := [] |}.

(** A client that adds the books of a list one after the other; the first
    exception ends it. *)
Fixpoint add_books (self : LibraryInventory) (bs : list Book)
  : result LibraryInventory :=
  match bs with
  | [] => Ok self
  | b :: bs' =>
      match add_book self b with
      | (Ok _, self') => add_books self' bs'
      | (Raise e, _) => Raise e
      end
  end.

(** *** Vocabulary of the properties *)

Definition valid_status (s : string) : Prop := s = "available" \/ s = "issued".

(** A book as the constructor leaves it: trimmed fields, one of the two
    statuses.  [issue] and [return_book] keep it so. *)
Definition constructed (b : Book) : Prop :=
  Py.strip (title b) = title b /\ Py.strip (author b) = author b
  /\ Py.strip (isbn b) = isbn b /\ valid_status (status b).

(** The record [search_by_isbn] stops at for the argument [s]: the first
    one, at position [i], whose ISBN is [s] trimmed. *)
Definition first_match (bs : list Book) (s : string) (i : nat) (b : Book) : Prop :=
  bs !! i = Some b /\ isbn b = Py.strip s
  /\ forall j b', j < i -> bs !! j = Some b' -> isbn b' <> Py.strip s.

(** [q] occurs in [t] when the case of letters is ignored. *)
Definition ci_substring (q t : string) : Prop :=
  exists pre suf, Py.lower t = pre +:+ Py.lower q +:+ suf.

(** [selected P l r]: [r] is [l] with exactly the records satisfying [P]
    kept, in the order of [l]. *)
Inductive selected (P : Book -> Prop) : list Book -> list Book -> Prop :=
| selected_nil : selected P [] []
| selected_keep b l r : P b -> selected P l r -> selected P (b :: l) (b :: r)
| selected_drop b l r : ~ P b -> selected P l r -> selected P (b :: l) r.

Definition statuses_valid (self : LibraryInventory) : Prop :=
  Forall (fun b => valid_status (status b)) (books self).

(** The books [load] would build from the file at [path], if it builds
    any, have pairwise distinct ISBNs. *)
Definition loads_unique (fs : filesystem) (path : string) : Prop :=
  forall bs logs, load_try fs (__init__ path) = Ok (bs, logs) -> NoDup (isbn <$> bs).

End Lab3.

(** ** Lab-3/lab_3.py: the command line *)

Module Lab3Main.
Import Lab3.

Definition LOG_FILE : string := "library.log".
Definition CATALOG : string := "catalog.json".

Definition nl : string := String (ascii_of_N 10) EmptyString.

(** What [print(s)] writes. *)
Definition print (s : string) : string := s +:+ nl.

(** Why a piece of console code does not return: [input()] at the end of
    the input, or an exception of the inventory. *)
Inductive abort := EOFError | Raised (e : exception).

(** A piece of console code: from the lines still to be typed, what it
    writes, and either why it does not return or its value and the lines
    left. *)
Definition console (A : Type) : Type :=
  list string -> list string * (abort + A * list string).

Definition ret {A} (a : A) : console A := fun inputs => ([], inr (a, inputs)).

Definition and_then {A B} (m : console A) (k : A -> console B) : console B :=
  fun inputs =>
    match m inputs with
    | (out, inl a) => (out, inl a)
    | (out, inr (a, rest)) => let r := k a rest in (out ++ r.1, r.2)
    end.

Notation "x <~ m ;; k" := (and_then m (fun x => k))
  (at level 100, m at next level, right associativity, only parsing).

Definition write (lines : list string) : console unit :=
  fun inputs => (lines, inr (tt, inputs)).

Definition raise {A} (e : exception) : console A :=
  fun inputs => ([], inl (Raised e)).

(** [input(prompt)] *)
Definition input (prompt : string) : console string :=
  fun inputs =>
    match inputs with
    | [] => ([prompt], inl EOFError)
    | line :: rest => ([prompt], inr (line, rest))
    end.

(** [setup_logging]: the [FileHandler] opens the log file at once, which
    can raise.  The records logged from then on are those of [logged]; the
    text of the log file is not kept in [files], nothing reads it. *)
Definition setup_logging (fs : filesystem) : result unit :=
  match on_write (fs LOG_FILE) with
  | Some msg => Raise (OSError msg)
  | None => Ok tt
  end.

(** [prompt_non_empty]: asks until a line has more than white space. *)
Fixpoint prompt_non_empty (prompt_text : string) (inputs : list string)
  : list string * (abort + string * list string) :=
  match inputs with
  | [] => ([prompt_text], inl EOFError)
  | line :: rest =>
      let val := Py.strip line in
      if decide (val = "") then
        let r := prompt_non_empty prompt_text rest in
        (prompt_text :: print "Input cannot be empty." :: r.1, r.2)
      else ([prompt_text], inr (val, rest))
  end.

Definition menu : list string :=
  [ print (nl +:+ "=== Library Inventory Manager ===");
    print "1. Add Book";
    print "2. Issue Book";
    print "3. Return Book";
    print "4. View All Books";
    print "5. Search";
    print "6. Exit" ].

Definition with_inventory (p : process) (inv : LibraryInventory) : process :=
  {| files := files p; inventory := inv; logged := logged p |}.

(** [inventory.save()] as [main] calls it. *)
Definition call_save (p : process) : result process :=
  match save (files p) (inventory p) with
  | Ok (fs, logs) =>
      Ok {| files := fs; inventory := inventory p; logged := logged p ++ logs |}
  | Raise e => Raise e
  end.

(** What [except ValueError] catches: [ValueError] and its subclass. *)
Definition is_ValueError (e : exception) : bool :=
  match e with
  | ValueError _ | JSONDecodeError _ => true
  | _ => false
  end.

(** The handler of the [try] of option 1. *)
Definition except_ValueError (e : exception) (p : process) : console process :=
  if is_ValueError e then
    _ <~ write [print ("Error: " +:+ str_exc e)] ;; ret p
  else raise e.

Definition saved (r : result process) : console process :=
  match r with
  | Ok p => ret p
  | Raise e => raise e
  end.

Definition add_choice (p : process) : console process :=
  title <~ prompt_non_empty "Title: " ;;
  author <~ prompt_non_empty "Author: " ;;
  isbn <~ prompt_non_empty "ISBN: " ;;
  match add_book (inventory p) (Book_new3 title author isbn) with
  | (Raise e, inv) => except_ValueError e (with_inventory p inv)
  | (Ok _, inv) =>
      match call_save (with_inventory p inv) with
      | Raise e => except_ValueError e (with_inventory p inv)
      | Ok p' => _ <~ write [print "Book added."] ;; ret p'
      end
  end.

Definition issue_choice (p : process) : console process :=
  isbn <~ prompt_non_empty "ISBN to issue: " ;;
  let r := issue_book_by_isbn (inventory p) isbn in
  _ <~ write [print (if r.1 then "Book issued." else "Issue failed.")] ;;
  saved (call_save (with_inventory p r.2)).

Definition return_choice (p : process) : console process :=
  isbn <~ prompt_non_empty "ISBN to return: " ;;
  let r := return_book_by_isbn (inventory p) isbn in
  _ <~ write [print (if r.1 then "Book returned." else "Return failed.")] ;;
  saved (call_save (with_inventory p r.2)).

Definition view_choice (p : process) : console process :=
  let lines := display_all (inventory p) in
  _ <~ write (match lines with
              | [] => [print "No books in catalog."]
              | _ => print <$> lines
              end) ;;
  ret p.

Definition search_choice (p : process) : console process :=
  sub <~ prompt_non_empty "Search 1) Title  2) ISBN: " ;;
  if decide (sub = "1") then
    q <~ prompt_non_empty "Title query: " ;;
    let results := search_by_title (inventory p) q in
    _ <~ write [print (match results with
                       | [] => "No matches."
                       | _ => String.concat nl (__str__ <$> results)
                       end)] ;;
    ret p
  else if decide (sub = "2") then
    q <~ prompt_non_empty "ISBN: " ;;
    _ <~ write [print (match search_by_isbn (inventory p) q with
                       | Some (_, b) => __str__ b
                       | None => "No such ISBN."
                       end)] ;;
    ret p
  else
    _ <~ write [print "Invalid choice."] ;; ret p.

(** After a pass: go round again, or leave the loop. *)
Inductive next := Again (p : process) | Leave (p : process).

Definition process_of (n : next) : process :=
  match n with Again p | Leave p => p end.

(** One pass through the body of [while True]. *)
Definition iteration (p : process) : console next :=
  _ <~ write menu ;;
  line <~ input "Enter choice (1-6): " ;;
  let choice := Py.strip line in
  if decide (choice = "1") then p' <~ add_choice p ;; ret (Again p')
  else if decide (choice = "2") then p' <~ issue_choice p ;; ret (Again p')
  else if decide (choice = "3") then p' <~ return_choice p ;; ret (Again p')
  else if decide (choice = "4") then p' <~ view_choice p ;; ret (Again p')
  else if decide (choice = "5") then p' <~ search_choice p ;; ret (Again p')
  else if decide (choice = "6") then
    _ <~ write [print "Exiting."] ;;
    p' <~ saved (call_save p) ;;
    ret (Leave p')
  else
    _ <~ write [print "Invalid option."] ;; ret (Again p).

(** Console code that never returns with more lines left than it was
    given, and console code that always reads at least one. *)
Definition reads_on {A} (m : console A) : Prop :=
  forall inputs out a rest,
    m inputs = (out, inr (a, rest)) -> List.length rest <= List.length inputs.

Definition reads_some {A} (m : console A) : Prop :=
  forall inputs out a rest,
    m inputs = (out, inr (a, rest)) -> List.length rest < List.length inputs.

Lemma reads_on_ret {A} (a : A) : reads_on (ret a).
Proof. intros inputs out a' rest H. unfold ret in H. by simplify_eq. Qed.

Lemma reads_on_write lines : reads_on (write lines).
Proof. intros inputs out a' rest H. unfold write in H. by simplify_eq. Qed.

Lemma reads_on_raise {A} e : reads_on (@raise A e).
Proof. intros inputs out a' rest H. unfold raise in H. by simplify_eq. Qed.

Lemma reads_some_input prompt : reads_some (input prompt).
Proof.
  intros [|line inputs] out a rest H; unfold input in H; simplify_eq.
  simpl. lia.
Qed.

Lemma reads_some_prompt_non_empty prompt_text :
  reads_some (prompt_non_empty prompt_text).
Proof.
  intros inputs. induction inputs as [|line inputs IH]; intros out a rest H;
    simpl in H; [done|].
  case_decide; simplify_eq; simpl; [|lia].
  destruct (prompt_non_empty prompt_text inputs) as [out' r] eqn:Hrec.
  simpl in *. subst r. specialize (IH _ _ _ eq_refl). lia.
Qed.

Lemma reads_some_on {A} (m : console A) : reads_some m -> reads_on m.
Proof. intros Hm inputs out a rest H. apply Hm in H. lia. Qed.

Lemma reads_on_and_then {A B} (m : console A) (k : A -> console B) :
  reads_on m -> (forall a, reads_on (k a)) -> reads_on (and_then m k).
Proof.
  intros Hm Hk inputs out b rest H. unfold and_then in H.
  destruct (m inputs) as [out1 [ab|[a rest1]]] eqn:Hm1; simplify_eq.
  destruct (k a rest1) as [out2 r] eqn:Hk1. simpl in *. simplify_eq.
  apply Hm in Hm1. apply Hk in Hk1. lia.
Qed.

Lemma reads_some_and_then {A B} (m : console A) (k : A -> console B) :
  reads_some m -> (forall a, reads_on (k a)) -> reads_some (and_then m k).
Proof.
  intros Hm Hk inputs out b rest H. unfold and_then in H.
  destruct (m inputs) as [out1 [ab|[a rest1]]] eqn:Hm1; simplify_eq.
  destruct (k a rest1) as [out2 r] eqn:Hk1. simpl in *. simplify_eq.
  apply Hm in Hm1. apply Hk in Hk1. lia.
Qed.

Lemma reads_some_after {A B} (m : console A) (k : A -> console B) :
  reads_on m -> (forall a, reads_some (k a)) -> reads_some (and_then m k).
Proof.
  intros Hm Hk inputs out b rest H. unfold and_then in H.
  destruct (m inputs) as [out1 [ab|[a rest1]]] eqn:Hm1; simplify_eq.
  destruct (k a rest1) as [out2 r] eqn:Hk1. simpl in *. simplify_eq.
  apply Hm in Hm1. apply Hk in Hk1. lia.
Qed.

Ltac reads :=
  repeat first
    [ apply reads_on_ret | apply reads_on_write | apply reads_on_raise
    | apply reads_some_on, reads_some_prompt_non_empty
    | apply reads_some_on, reads_some_input
    | apply reads_on_and_then; [|intros ?]
    | progress unfold except_ValueError, saved
    | case_match | case_decide ].

Lemma reads_on_choices p :
  reads_on (add_choice p) /\ reads_on (issue_choice p)
  /\ reads_on (return_choice p) /\ reads_on (view_choice p)
  /\ reads_on (search_choice p).
Proof.
  unfold add_choice, issue_choice, return_choice, view_choice, search_choice.
  split_and!; reads.
Qed.

Lemma reads_some_iteration p : reads_some (iteration p).
Proof.
  unfold iteration. apply reads_some_after; [apply reads_on_write|intros _].
  apply reads_some_and_then; [apply reads_some_input|intros line].
  destruct (reads_on_choices p) as (? & ? & ? & ? & ?).
  repeat case_decide; reads; done.
Qed.

Definition inspect {A} (a : A) : {b : A | a = b} := exist _ a eq_refl.

(** How [main] ends: it leaves the loop, with the process as it then is,
    or something is raised that nothing catches. *)
Inductive ending := Exited (p : process) | Uncaught (a : abort).

(** The [while True] loop of [main]. *)
Equations? loop (p : process) (inputs : list string) : list string * ending
  by wf (List.length inputs) lt :=
  loop p inputs with inspect (iteration p inputs) := {
    | exist _ (out, inl a) _ => (out, Uncaught a)
    | exist _ (out, inr (Leave p', _)) _ => (out, Exited p')
    | exist _ (out, inr (Again p', rest)) _ =>
        let r := loop p' rest in (out ++ r.1, r.2) }.
Proof. eapply reads_some_iteration; eassumption. Qed.

(** [main] on the files [fs] and the lines typed at it. *)
Definition main (fs : filesystem) (inputs : list string) : list string * ending :=
  match setup_logging fs with
  | Raise e => ([], Uncaught (Raised e))
  | Ok _ =>
      match load fs (__init__ CATALOG) with
      | Raise e => ([], Uncaught (Raised e))
      | Ok (inv, logs) =>
          loop {| files := fs; inventory := inv; logged := logs |} inputs
      end
  end.

(** The processes the loop of [main] is entered with, and the lines still
    unread there, when [main] runs on [fs] and [inputs]. *)
Inductive session_head (fs : filesystem) (inputs : list string)
  : process -> list string -> Prop :=
| session_first inv logs :
    setup_logging fs = Ok tt ->
    load fs (__init__ CATALOG) = Ok (inv, logs) ->
    session_head fs inputs {| files := fs; inventory := inv; logged := logs |} inputs
| session_next p unread out p' rest :
    session_head fs inputs p unread ->
    iteration p unread = (out, inr (Again p', rest)) ->
    session_head fs inputs p' rest.

End Lab3Main.

(** * Properties *)

(** ** Facts about the built-ins *)

Lemma lstrip_head s :
  Py.lstrip s = EmptyString
  \/ exists c r, Py.lstrip s = String c r /\ Py.isspace c = false.
Proof.
  induction s as [|c s IH]; simpl; [by left|].
  destruct (Py.isspace c) eqn:Hc; [exact IH|].
  right. by exists c, s.
Qed.

Lemma rstrip_idem s : Py.rstrip (Py.rstrip s) = Py.rstrip s.
Proof.
  induction s as [|c s IH]; simpl; [done|].
  destruct (Py.rstrip s) as [|d r] eqn:Hr.
  - destruct (Py.isspace c) eqn:Hc; simpl; [done|]. by rewrite Hc.
  - simpl in *. by rewrite IH.
Qed.

Lemma rstrip_keeps_head c r :
  Py.isspace c = false -> exists r', Py.rstrip (String c r) = String c r'.
Proof.
  intros Hc. simpl. destruct (Py.rstrip r); [rewrite Hc|]; eauto.
Qed.

Lemma strip_idem s : Py.strip (Py.strip s) = Py.strip s.
Proof.
  unfold Py.strip.
  destruct (lstrip_head s) as [->|(c & r & -> & Hc)]; [done|].
  destruct (rstrip_keeps_head c r Hc) as [r' Hr'].
  assert (Py.lstrip (Py.rstrip (String c r)) = Py.rstrip (String c r)) as ->.
  { rewrite Hr'. simpl. by rewrite Hc. }
  apply rstrip_idem.
Qed.

Lemma app_cons c s t : String c s +:+ t = String c (s +:+ t).
Proof. reflexivity. Qed.

Lemma app_nil t : EmptyString +:+ t = t.
Proof. reflexivity. Qed.

Lemma prefix_spec q t :
  String.prefix q t = true <-> exists suf, t = q +:+ suf.
Proof.
  revert t. induction q as [|c q IH]; intros [|d t]; cbn [String.prefix].
  - split; [intros _; by exists EmptyString | done].
  - split; [intros _; by exists (String d t) | done].
  - split; [done | by intros [? ?]].
  - setoid_rewrite app_cons.
    destruct (ascii_dec c d) as [->|Hne].
    + rewrite IH. split; intros [suf Hs]; exists suf; congruence.
    + split; [done | intros [suf Hs]; congruence].
Qed.

Lemma contains_spec q t :
  Py.contains q t = true <-> exists pre suf, t = pre +:+ q +:+ suf.
Proof.
  induction t as [|c t IH]; cbn [Py.contains].
  - rewrite orb_false_r, prefix_spec. split.
    + intros [suf Hs]. by exists EmptyString, suf.
    + intros (pre & suf & Hs). destruct pre; [by exists suf | done].
  - rewrite orb_true_iff, prefix_spec, IH. split.
    + intros [[suf Hs]|(pre & suf & Hs)].
      * by exists EmptyString, suf.
      * exists (String c pre), suf. by rewrite app_cons, Hs.
    + intros (pre & suf & Hs). destruct pre as [|d pre].
      * left. by exists suf.
      * right. exists pre, suf. rewrite app_cons in Hs. congruence.
Qed.

(** ** The calorie tracker *)

Section calorie_tracker.
Import Lab1.

Lemma loop_unfold st inputs :
  loop st inputs =
  match iteration st inputs with
  | Continue out st' rest => (out ++ (loop st' rest).1, (loop st' rest).2)
  | Stop out s => (out, s)
  end.
Proof.
  funelim (loop st inputs);
    match goal with H : iteration _ _ = _ |- _ => by rewrite H end.
Qed.

(** From a state the loop is entered with, the script goes on as the
    loop does from there. *)
Lemma main_from_head inputs st unread :
  loop_head inputs st unread ->
  exists out, main inputs = (out ++ (loop st unread).1, (loop st unread).2).
Proof.
  induction 1 as [|st unread out st' rest _ [out0 IH] Hit].
  - by exists [print ["Welcome to the Calorie Tracking App!"]].
  - exists (out0 ++ out). rewrite IH, (loop_unfold st unread), Hit. simpl.
    by rewrite (assoc_L (++)).
Qed.



(** C9.  When the line typed at "Enter calories for the meal: " is not an
    integer literal, [int] raises [ValueError]; the branch has no handler,
    so the pass ends there, right after the prompt, and the whole script
    ends with that exception uncaught, whatever lines were still to come. *)
Theorem non_numeric_calories_end_the_program inputs st name text rest :
  loop_head inputs st ("1" :: name :: text :: rest) ->
  Py.int text = None ->
  iteration st ("1" :: name :: text :: rest)
  = Stop (menu ++ ["Enter meal name: "; "Enter calories for the meal: "])
      (Uncaught (ValueError text))
  /\ (main inputs).2 = Uncaught (ValueError text)
  /\ exists out,
      (main inputs).1
      = out ++ menu ++ ["Enter meal name: "; "Enter calories for the meal: "].
Proof.
  intros Hhead Hint.
  assert (iteration st ("1" :: name :: text :: rest)
          = Stop (menu ++ ["Enter meal name: "; "Enter calories for the meal: "])
              (Uncaught (ValueError text))) as Hit.
  { unfold iteration. rewrite decide_True by done. by rewrite Hint. }
  split; [exact Hit|].
  destruct (main_from_head _ _ _ Hhead) as [out ->].
  rewrite loop_unfold, Hit. simpl. eauto.
Qed.

Lemma non_numeric_calories_end_the_program_witness :
  (main ["3"; "1"; "rice"; "two hundred"; "3"; "4"]).2
  = Uncaught (ValueError "two hundred").
Proof.
  refine (proj1 (proj2 (non_numeric_calories_end_the_program
            ["3"; "1"; "rice"; "two hundred"; "3"; "4"] initial
            "rice" "two hundred" ["3"; "4"] _ _))).
  - eapply head_next; [apply head_first | reflexivity].
  - reflexivity.
Defined.



End calorie_tracker.

(** ** The library inventory *)

Section library_inventory.
Import Lab3.

Lemma set_books_id self : set_books self (books self) = self.
Proof. by destruct self. Qed.

Lemma Book_new_constructed t a i s : constructed (Book_new t a i s).
Proof.
  unfold constructed, Book_new, __post_init__, valid_status. simpl.
  rewrite !strip_idem. split_and!; try done.
  case_decide as Hs; [by left|].
  rewrite !elem_of_cons, elem_of_nil in Hs. tauto.
Qed.

Lemma constructed_Book_new b :
  constructed b -> Book_new (title b) (author b) (isbn b) (status b) = b.
Proof.
  intros (Ht & Ha & Hi & Hs). destruct b as [t a i s]; simpl in *.
  unfold Book_new, __post_init__; simpl.
  rewrite Ht, Ha, Hi. f_equal.
  rewrite decide_False; [done|]. destruct Hs as [-> | ->]; set_solver.
Qed.

Lemma constructed_iff b :
  constructed b <-> exists t a i s, b = Book_new t a i s.
Proof.
  split.
  - intros Hb. exists (title b), (author b), (isbn b), (status b).
    by rewrite constructed_Book_new.
  - intros (t & a & i & s & ->). apply Book_new_constructed.
Qed.

Lemma from_dict_constructed data b : from_dict data = Ok b -> constructed b.
Proof.
  unfold from_dict, bind. intros H.
  repeat case_match; simplify_eq. apply Book_new_constructed.
Qed.

(** An entry whose status is not a string builds no book: the call of
    [strip] on it raises. *)
Lemma from_dict_status_not_a_string d v :
  d !! "status" = Some v -> (forall s, v <> JStr s) ->
  exists e, from_dict (JDict d) = Raise e.
Proof.
  intros Hv Hns. unfold from_dict, get, bind. rewrite Hv. simpl.
  repeat case_match; simplify_eq; eauto.
  match goal with H : strip v = Ok _ |- _ => destruct v; simplify_eq end.
  by edestruct Hns.
Qed.

Lemma from_dict_to_dict b : constructed b -> from_dict (to_dict b) = Ok b.
Proof.
  intros Hb. pose proof Hb as (Ht & Ha & Hi & Hs).
  unfold from_dict, to_dict, get, bind. simplify_map_eq. simpl.
  rewrite Ht, Ha, Hi.
  assert (Py.strip (status b) = status b) as ->.
  { by destruct Hs as [-> | ->]. }
  by rewrite constructed_Book_new.
Qed.

Lemma comprehension_from_dict_to_dict bs :
  Forall constructed bs -> comprehension from_dict (to_dict <$> bs) = Ok bs.
Proof.
  induction 1 as [|b bs Hb _ IH]; [done|].
  rewrite fmap_cons. cbn [comprehension].
  rewrite from_dict_to_dict by done. cbn [bind]. by rewrite IH.
Qed.

Lemma comprehension_from_dict_constructed entries bs :
  comprehension from_dict entries = Ok bs -> Forall constructed bs.
Proof.
  revert bs. induction entries as [|e entries IH]; intros bs H; simpl in H.
  - by simplify_eq.
  - unfold bind in H. repeat case_match; simplify_eq.
    constructor; eauto using from_dict_constructed.
Qed.

Lemma fs_lookup_insert (fs : filesystem) path n : (<[path := n]> fs) path = n.
Proof. unfold insert, fn_insert. by rewrite decide_True. Qed.

(** What [load] finds at the path once [save] has written there. *)
Lemma load_try_after_save fs self fs' logs other :
  Forall constructed (books self) ->
  save_try fs self = Ok (fs', logs) ->
  catalog_path other = catalog_path self ->
  load_try fs' other
  = Ok (books self,
        [(INFO, "Loaded " +:+ Py.str_len (List.length (books self))
                  +:+ " books from catalog.")]).
Proof.
  intros Hbs Hsave Hpath. unfold save_try in Hsave.
  case_match; simplify_eq.
  unfold load_try. rewrite Hpath, fs_lookup_insert. simpl.
  by rewrite comprehension_from_dict_to_dict.
Qed.


(** Concrete books are seen to be [constructed] by evaluation. *)
Ltac one_constructed := vm_compute; repeat split; auto.
Ltac all_constructed :=
  repeat (apply Forall_cons_2; [one_constructed|]); apply Forall_nil_2.


Lemma search_by_isbn_None self s :
  search_by_isbn self s = None <->
  forall b, b ∈ books self -> isbn b <> Py.strip s.
Proof.
  unfold search_by_isbn. rewrite list_find_None, Forall_forall. done.
Qed.

Lemma search_by_isbn_Some self s i b :
  search_by_isbn self s = Some (i, b) <-> first_match (books self) s i b.
Proof.
  unfold search_by_isbn, first_match. rewrite list_find_Some.
  split; intros (? & ? & Hlt); split_and!; try done.
  - intros j b' ? ?. by eapply Hlt.
  - intros j b' ? ?. by eapply Hlt.
Qed.

Lemma add_book_duplicate self book b :
  Py.strip (isbn book) = isbn book ->
  b ∈ books self -> isbn b = isbn book ->
  add_book self book
  = (Raise (ValueError "A book with this ISBN already exists."), self).
Proof.
  intros Hi Hb Hsame. unfold add_book.
  destruct (search_by_isbn self (isbn book)) as [?|] eqn:Hfind; [done|].
  rewrite search_by_isbn_None, Hi in Hfind. by destruct (Hfind b Hb).
Qed.

Lemma add_book_fresh self book :
  Py.strip (isbn book) = isbn book ->
  (forall b, b ∈ books self -> isbn b <> isbn book) ->
  add_book self book = (Ok tt, set_books self (books self ++ [book])).
Proof.
  intros Hi Hfresh. unfold add_book.
  destruct (search_by_isbn self (isbn book)) as [[i b]|] eqn:Hfind; [|done].
  apply search_by_isbn_Some in Hfind as (Hb & Hsame & _).
  rewrite Hi in Hsame. apply list_elem_of_lookup_2 in Hb.
  by destruct (Hfresh b Hb).
Qed.



Lemma add_books_distinct bs : forall self,
  Forall constructed bs ->
  NoDup (isbn <$> (books self ++ bs)) ->
  add_books self bs = Ok (set_books self (books self ++ bs)).
Proof.
  induction bs as [|b bs IH]; intros self Hbs Hnd; simpl.
  - by rewrite (right_id_L [] (++)), set_books_id.
  - apply Forall_cons in Hbs as [Hb Hbs].
    rewrite add_book_fresh.
    + rewrite IH; [|done|]; simpl.
      * by rewrite <- (assoc_L (++)).
      * by rewrite <- (assoc_L (++)).
    + apply Hb.
    + intros b' Hb' Hsame.
      rewrite fmap_app, fmap_cons in Hnd.
      apply NoDup_app in Hnd as (_ & Hnd & _).
      apply (Hnd (isbn b)); [|apply list_elem_of_here].
      rewrite <- Hsame. by apply list_elem_of_fmap_2.
Qed.

(** C3.  Adding books with pairwise distinct ISBNs to a new inventory, one
    after the other, raises nothing; the catalog then has as many records
    as there were adds, and [display_all] gives their lines in the order
    of the adds. *)
Theorem adds_with_distinct_isbns_keep_count_and_order path bs :
  Forall constructed bs ->
  NoDup (isbn <$> bs) ->
  exists inv,
    add_books (__init__ path) bs = Ok inv
    /\ List.length (books inv) = List.length bs
    /\ books inv = bs
    /\ display_all inv = __str__ <$> bs.
Proof.
  intros Hbs Hnd. exists (set_books (__init__ path) bs).
  split; [|done]. by rewrite add_books_distinct.
Qed.

Lemma adds_with_distinct_isbns_keep_count_and_order_witness :
  let bs := [Book_new "Dune" "Herbert" "2" "available";
             Book_new "Emma" "Austen" "1" "available"] in
  exists inv,
    add_books (__init__ "catalog.json") bs = Ok inv
    /\ List.length (books inv) = 2
    /\ books inv = bs
    /\ display_all inv
       = ["Dune — Herbert (ISBN: 2) [available]";
          "Emma — Austen (ISBN: 1) [available]"].
Proof.
  intros bs.
  apply (adds_with_distinct_isbns_keep_count_and_order "catalog.json" bs).
  - all_constructed.
  - compute_done.
Defined.








(** *** Invariants of the catalog *)

Lemma load_try_constructed fs self bs logs :
  load_try fs self = Ok (bs, logs) -> Forall constructed bs.
Proof.
  unfold load_try, bind. intros H.
  repeat case_match; simplify_eq; [done|].
  eauto using comprehension_from_dict_constructed.
Qed.

Lemma load_try_path fs self other :
  catalog_path other = catalog_path self -> load_try fs other = load_try fs self.
Proof. unfold load_try. by intros ->. Qed.

Lemma load_books fs self inv logs :
  load fs self = Ok (inv, logs) ->
  catalog_path inv = catalog_path self
  /\ (books inv = [] \/ exists logs', load_try fs self = Ok (books inv, logs')).
Proof.
  unfold load. intros H. destruct (load_try fs self) as [[bs logs']|e] eqn:Htry;
    simplify_eq; simpl; eauto.
Qed.

Lemma issue_keeps b :
  isbn (issue b).2 = isbn b
  /\ (valid_status (status b) -> valid_status (status (issue b).2))
  /\ (constructed b -> constructed (issue b).2).
Proof.
  unfold issue, constructed, valid_status. case_match; simpl; intuition.
Qed.

Lemma return_book_keeps b :
  isbn (return_book b).2 = isbn b
  /\ (valid_status (status b) -> valid_status (status (return_book b).2))
  /\ (constructed b -> constructed (return_book b).2).
Proof.
  unfold return_book, constructed, valid_status. case_match; simpl; intuition.
Qed.

(** Writing back, at the position of a book, a book with the same ISBN. *)
Lemma insert_same_isbn (bs : list Book) i b b' :
  bs !! i = Some b -> isbn b' = isbn b -> isbn <$> <[i := b']> bs = isbn <$> bs.
Proof.
  intros Hi Hsame. rewrite list_fmap_insert, Hsame.
  apply list_insert_id. by rewrite list_lookup_fmap, Hi.
Qed.

Lemma exec_path p o :
  catalog_path (inventory (exec p o)) = catalog_path (inventory p).
Proof.
  destruct o; simpl.
  - destruct (load _ _) as [[inv logs]|] eqn:H; [|done]; simpl.
    by apply load_books in H as [? _].
  - by destruct (save _ _) as [[fs logs]|].
  - unfold add_book. by case_match.
  - unfold issue_book_by_isbn. by repeat case_match.
  - unfold return_book_by_isbn. by repeat case_match.
Qed.

Lemma exec_constructed p o :
  Forall constructed (books (inventory p)) ->
  Forall constructed (books (inventory (exec p o))).
Proof.
  intros Hp. destruct o; simpl.
  - destruct (load _ _) as [[inv logs]|] eqn:H; [|done]; simpl.
    apply load_books in H as [_ [->|[logs' H]]]; [done|].
    eauto using load_try_constructed.
  - by destruct (save _ _) as [[fs logs]|].
  - unfold add_book. case_match; [done|]. simpl.
    apply Forall_app. split; [done|].
    apply Forall_singleton, Book_new_constructed.
  - unfold issue_book_by_isbn.
    destruct (search_by_isbn _ _) as [[i b]|] eqn:Hfind; [|done]. simpl.
    apply search_by_isbn_Some in Hfind as (Hi & _).
    apply Forall_insert; [done|]. apply issue_keeps.
    by eapply Forall_lookup_1.
  - unfold return_book_by_isbn.
    destruct (search_by_isbn _ _) as [[i b]|] eqn:Hfind; [|done]. simpl.
    apply search_by_isbn_Some in Hfind as (Hi & _).
    apply Forall_insert; [done|]. apply return_book_keeps.
    by eapply Forall_lookup_1.
Qed.


Lemma run_snoc p ops o : run p (ops ++ [o]) = exec (run p ops) o.
Proof. unfold run. by rewrite fold_left_app. Qed.

Lemma run_constructed fs path ops :
  Forall constructed (books (inventory (run (start fs path) ops))).
Proof.
  induction ops as [|o ops IH] using rev_ind; [by constructor|].
  rewrite run_snoc. by apply exec_constructed.
Qed.

Lemma run_path fs path ops :
  catalog_path (inventory (run (start fs path) ops)) = path.
Proof.
  induction ops as [|o ops IH] using rev_ind; [done|].
  by rewrite run_snoc, exec_path.
Qed.

(** One operation keeps the ISBNs of the catalog distinct, and keeps the
    file loading to distinct ISBNs. *)
Lemma exec_unique path p o :
  catalog_path (inventory p) = path ->
  Forall constructed (books (inventory p)) ->
  NoDup (isbn <$> books (inventory p)) ->
  loads_unique (files p) path ->
  NoDup (isbn <$> books (inventory (exec p o)))
  /\ loads_unique (files (exec p o)) path.
Proof.
  intros Hpath Hcons Hnd Hfile.
  destruct o as [| |title0 author0 isbn0 status0| |]; simpl.
  - destruct (load _ _) as [[inv logs]|] eqn:H; [|done]; simpl.
    split; [|done].
    apply load_books in H as [_ [->|[logs' H]]]; [constructor|].
    eapply Hfile. erewrite load_try_path; [exact H|]. by rewrite Hpath.
  - unfold save.
    destruct (save_try _ _) as [[fs logs]|] eqn:H; simpl; [|done].
    split; [done|]. intros bs logs' Hload.
    erewrite load_try_after_save in Hload; [|done..].
    by simplify_eq.
  - split; [|done]. unfold add_book.
    destruct (search_by_isbn _ _) eqn:Hfind; [done|]. simpl.
    rewrite search_by_isbn_None in Hfind.
    destruct (Book_new_constructed title0 author0 isbn0 status0) as (_ & _ & Hi & _).
    rewrite Hi in Hfind. rewrite fmap_app. apply NoDup_app. split_and!; [done| |].
    + intros x (b & -> & Hb)%list_elem_of_fmap Hx.
      apply list_elem_of_singleton in Hx. by apply (Hfind b).
    + apply NoDup_singleton.
  - split; [|done]. unfold issue_book_by_isbn.
    destruct (search_by_isbn _ _) as [[i b]|] eqn:Hfind; [|done]. simpl.
    apply search_by_isbn_Some in Hfind as (Hi & _).
    rewrite (insert_same_isbn _ i b); [done..|]. apply (proj1 (issue_keeps b)).
  - split; [|done]. unfold return_book_by_isbn.
    destruct (search_by_isbn _ _) as [[i b]|] eqn:Hfind; [|done]. simpl.
    apply search_by_isbn_Some in Hfind as (Hi & _).
    rewrite (insert_same_isbn _ i b); [done..|]. apply (proj1 (return_book_keeps b)).
Qed.


(** C5, as the code has it.  [load] builds a record for every entry of the
    file and compares no ISBNs, so a file with two entries of one ISBN
    loads as a catalog with a repeated ISBN (the lemma after the theorem).
    What holds: when the file found at the path, if any, loads to pairwise
    distinct ISBNs - as every file written by [save] from such a catalog
    does - the ISBNs of the catalog are pairwise distinct after any
    sequence of load, save, add, issue and return. *)
Theorem isbns_stay_distinct fs path ops :
  loads_unique fs path ->
  NoDup (isbn <$> books (inventory (run (start fs path) ops)))
  /\ loads_unique (files (run (start fs path) ops)) path.
Proof.
  intros Hfile. induction ops as [|o ops IH] using rev_ind.
  - split; [constructor | done].
  - rewrite run_snoc. destruct IH as [Hnd Hfile'].
    apply exec_unique; auto using run_path, run_constructed.
Qed.

Lemma isbns_stay_distinct_witness :
  let fs : filesystem := fun _ => mkNode NoFile None in
  NoDup (isbn <$> books (inventory (run (start fs "catalog.json")
           [Load; AddBook "Dune" "Herbert" "111" "available"; Save;
            AddBook "Dune Messiah" "Herbert" " 111" "available";
            AddBook "Emma" "Austen" "222" "available"; IssueBook "222"; Save;
            Load]))).
Proof.
  intros fs.
  refine (proj1 (isbns_stay_distinct fs "catalog.json" _ _)).
  intros bs logs H. vm_compute in H. injection H as <- _. constructor.
Defined.

Lemma isbns_stay_distinct_counterexample :
  let twice :=
    JList [to_dict (Book_new "Dune" "Herbert" "111" "available");
           to_dict (Book_new "Emma" "Austen" "111" "available")] in
  let fs : filesystem := fun _ => mkNode (Holds (Document twice)) None in
  ~ NoDup (isbn <$> books (inventory (run (start fs "catalog.json") [Load]))).
Proof.
  intros twice fs. vm_compute.
  intros [Hnotin _]%NoDup_cons. apply Hnotin. apply list_elem_of_here.
Qed.





(** *** Searching by title *)

Lemma ci_substring_contains q t :
  ci_substring q t <-> Py.contains (Py.lower q) (Py.lower t) = true.
Proof. unfold ci_substring. by rewrite contains_spec. Qed.

Lemma filter_selected (f : Book -> bool) (P : Book -> Prop) l :
  (forall b, f b = true <-> P b) -> selected P l (List.filter f l).
Proof.
  intros Hf. induction l as [|b l IH]; simpl; [constructor|].
  destruct (f b) eqn:Hb.
  - apply selected_keep; [by apply Hf | done].
  - apply selected_drop; [|done]. rewrite <- Hf. congruence.
Qed.

(** C8, as the code has it.  [search_by_title] trims the query before it
    compares: the records it returns are those whose title contains the
    trimmed query when the case of letters is ignored, all of them, in the
    order of the catalog, and none is an ordinary result.  With the query
    "war" the titles "Warfare" and "The Art of War" are found and "Peace"
    is not. *)
Theorem search_by_title_selects_matches_of_the_trimmed_query :
  (forall self q,
     selected (fun b => ci_substring (Py.strip q) (title b))
       (books self) (search_by_title self q))
  /\ (let warfare := Book_new "Warfare" "Sun Tzu" "1" "available" in
      let peace := Book_new "Peace" "Tolstoy" "2" "available" in
      let art := Book_new "The Art of War" "Sun Tzu" "3" "issued" in
      let self := mkInventory "catalog.json" [warfare; peace; art] in
      search_by_title self "war" = [warfare; art]
      /\ search_by_title self "WAR" = [warfare; art]
      /\ search_by_title self "zen" = []).
Proof.
  split.
  - intros self q. unfold search_by_title. apply filter_selected.
    intros b. by rewrite ci_substring_contains.
  - by vm_compute.
Qed.

(** The query "war " with a space after it is no part of the title
    "Warfare", whatever the case of letters; [search_by_title] finds the
    book all the same. *)
Lemma search_by_title_selects_matches_of_the_trimmed_query_counterexample :
  let warfare := Book_new "Warfare" "Sun Tzu" "1" "available" in
  let self := mkInventory "catalog.json" [warfare] in
  search_by_title self "war " = [warfare]
  /\ ~ ci_substring "war " (title warfare)
  /\ ~ selected (fun b => ci_substring "war " (title b))
         (books self) (search_by_title self "war ").
Proof.
  intros warfare self.
  assert (~ ci_substring "war " (title warfare)) as Hno.
  { rewrite ci_substring_contains. by vm_compute. }
  split_and!; [reflexivity | done |].
  change (search_by_title self "war ") with [warfare]. simpl.
  inversion 1 as [|??? Hyes|??? _ Hrest]; [done|]. inversion Hrest.
Qed.

End library_inventory.

(** ** More of the library inventory *)

Section inventory_operations.
Import Lab3.

Ltac evaluated := vm_compute; repeat split; auto.

Lemma first_match_unique_isbn (bs : list Book) s i b :
  NoDup (isbn <$> bs) -> bs !! i = Some b -> Py.strip s = isbn b ->
  first_match bs s i b.
Proof.
  intros Hnd Hi Hs. split_and!; [done..|].
  intros j b' Hlt Hj Hsame.
  assert (j = i); [|lia].
  apply (NoDup_lookup (isbn <$> bs) j i (isbn b) Hnd).
  - rewrite list_lookup_fmap, Hj. simpl. by rewrite Hsame, Hs.
  - by rewrite list_lookup_fmap, Hi.
Qed.

(** In a catalog whose ISBNs are pairwise distinct, [search_by_isbn] finds
    each book, at its position, from any text that trims to its ISBN. *)
Theorem search_by_isbn_finds_each_book self s i b :
  NoDup (isbn <$> books self) ->
  books self !! i = Some b ->
  Py.strip s = isbn b ->
  search_by_isbn self s = Some (i, b).
Proof.
  intros Hnd Hi Hs. apply search_by_isbn_Some.
  by apply first_match_unique_isbn.
Qed.

Lemma search_by_isbn_finds_each_book_witness :
  let dune := Book_new "Dune" "Herbert" "111" "available" in
  let emma := Book_new "Emma" "Austen" "222" "issued" in
  search_by_isbn (mkInventory "catalog.json" [dune; emma]) "  222 "
  = Some (1, emma).
Proof.
  intros dune emma.
  apply (search_by_isbn_finds_each_book
           (mkInventory "catalog.json" [dune; emma]) "  222 " 1 emma).
  - compute_done.
  - reflexivity.
  - reflexivity.
Defined.

(** After [add_book] has returned normally, the book is found by its ISBN,
    at the end of the catalog, and a search for any other ISBN gives what
    it gave before. *)
Theorem add_book_then_search_by_isbn self book inv :
  constructed book ->
  add_book self book = (Ok tt, inv) ->
  search_by_isbn inv (isbn book) = Some (List.length (books self), book)
  /\ forall s, Py.strip s <> isbn book ->
       search_by_isbn inv s = search_by_isbn self s.
Proof.
  intros (_ & _ & Hi & _) Hadd. unfold add_book in Hadd.
  destruct (search_by_isbn self (isbn book)) eqn:Hnone; simplify_eq.
  unfold search_by_isbn in *. simpl. rewrite Hi in *. split.
  - rewrite list_find_app_r by done. simpl.
    by rewrite decide_True.
  - intros s Hs.
    destruct (list_find (fun b => isbn b = Py.strip s) (books self))
      as [[i b]|] eqn:Hfind.
    + by apply list_find_app_l.
    + rewrite list_find_app_r by done. simpl.
      rewrite decide_False; [done|]. intros Heq. by destruct Hs.
Qed.

Lemma add_book_then_search_by_isbn_witness :
  let dune := Book_new "Dune" "Herbert" "111" "available" in
  let emma := Book_new "Emma" "Austen" " 222" "available" in
  let self := mkInventory "catalog.json" [dune] in
  search_by_isbn (add_book self emma).2 "222" = Some (1, emma).
Proof.
  intros dune emma self.
  apply (add_book_then_search_by_isbn self emma (add_book self emma).2).
  - evaluated.
  - reflexivity.
Defined.

(** Whatever a first [add_book] of a book did, a second [add_book] of the
    same book raises the duplicate error and changes nothing. *)
Theorem add_book_twice_is_refused self book :
  constructed book ->
  add_book (add_book self book).2 book
  = (Raise (ValueError "A book with this ISBN already exists."),
     (add_book self book).2).
Proof.
  intros (_ & _ & Hi & _). unfold add_book at 2 3.
  destruct (search_by_isbn self (isbn book)) as [[i b]|] eqn:Hfind; simpl.
  - unfold add_book. by rewrite Hfind.
  - apply (add_book_duplicate _ book book); [done| |done].
    simpl. apply elem_of_app. right. apply list_elem_of_here.
Qed.

Lemma add_book_twice_is_refused_witness :
  let emma := Book_new "Emma" "Austen" "222" "available" in
  let self := mkInventory "catalog.json" [] in
  add_book (add_book self emma).2 emma
  = (Raise (ValueError "A book with this ISBN already exists."),
     mkInventory "catalog.json" [emma]).
Proof.
  intros emma self. apply (add_book_twice_is_refused self emma). evaluated.
Defined.

(** Looking up again after the book found has been written back with the
    same ISBN finds the written book at the same position. *)
Lemma search_after_write_back self s i b b' :
  search_by_isbn self s = Some (i, b) ->
  isbn b' = isbn b ->
  search_by_isbn (set_books self (<[i := b']> (books self))) s = Some (i, b').
Proof.
  rewrite !search_by_isbn_Some. intros (Hi & Hs & Hleast) Hsame. simpl.
  split_and!.
  - apply list_lookup_insert_eq. by eapply lookup_lt_Some.
  - congruence.
  - intros j b'' Hlt Hj. rewrite list_lookup_insert_ne in Hj by lia.
    by eapply Hleast.
Qed.

(** Issuing twice: the second [issue_book_by_isbn] for the same text
    always returns [False] and changes nothing; so does the second
    [return_book_by_isbn]. *)
Theorem second_issue_or_return_fails self s :
  issue_book_by_isbn (issue_book_by_isbn self s).2 s
  = (false, (issue_book_by_isbn self s).2)
  /\ return_book_by_isbn (return_book_by_isbn self s).2 s
     = (false, (return_book_by_isbn self s).2).
Proof.
  split.
  - unfold issue_book_by_isbn at 2 3.
    destruct (search_by_isbn self s) as [[i b]|] eqn:Hfind; simpl.
    + unfold issue_book_by_isbn.
      rewrite (search_after_write_back self s i b (issue b).2 Hfind)
        by apply issue_keeps.
      assert (issue (issue b).2 = (false, (issue b).2)) as ->.
      { unfold issue, is_available. by repeat (case_bool_decide || simpl). }
      simpl. by rewrite list_insert_insert_eq.
    + unfold issue_book_by_isbn. by rewrite Hfind.
  - unfold return_book_by_isbn at 2 3.
    destruct (search_by_isbn self s) as [[i b]|] eqn:Hfind; simpl.
    + unfold return_book_by_isbn.
      rewrite (search_after_write_back self s i b (return_book b).2 Hfind)
        by apply return_book_keeps.
      assert (return_book (return_book b).2 = (false, (return_book b).2)) as ->.
      { unfold return_book, is_available. by repeat (case_bool_decide || simpl). }
      simpl. by rewrite list_insert_insert_eq.
    + unfold return_book_by_isbn. by rewrite Hfind.
Qed.

(** An issue that succeeded is undone by the return of the same ISBN,
    which succeeds and gives back the inventory as it was; and, when the
    statuses of the catalog are among the two values, a return that
    succeeded is undone by the issue. *)
Theorem issue_and_return_undo_each_other self s :
  ((issue_book_by_isbn self s).1 = true ->
   return_book_by_isbn (issue_book_by_isbn self s).2 s = (true, self))
  /\ (statuses_valid self ->
      (return_book_by_isbn self s).1 = true ->
      issue_book_by_isbn (return_book_by_isbn self s).2 s = (true, self)).
Proof.
  split.
  - unfold issue_book_by_isbn.
    destruct (search_by_isbn self s) as [[i b]|] eqn:Hfind; simpl; [|done].
    intros Hok. unfold return_book_by_isbn.
    rewrite (search_after_write_back self s i b (issue b).2 Hfind)
      by apply issue_keeps.
    apply search_by_isbn_Some in Hfind as (Hi & _).
    unfold issue, is_available in *. case_bool_decide as Hst; [|done]. simpl.
    rewrite list_insert_insert_eq.
    assert (set_status (set_status b "issued") "available" = b) as ->.
    { destruct b; simpl in *. by subst. }
    rewrite (list_insert_id (books self) i b Hi). by destruct self.
  - intros Hvalid. unfold return_book_by_isbn.
    destruct (search_by_isbn self s) as [[i b]|] eqn:Hfind; simpl; [|done].
    intros Hok. unfold issue_book_by_isbn.
    rewrite (search_after_write_back self s i b (return_book b).2 Hfind)
      by apply return_book_keeps.
    apply search_by_isbn_Some in Hfind as (Hi & _).
    pose proof (Forall_lookup_1 _ _ _ _ Hvalid Hi) as Hb.
    unfold return_book, is_available in *. case_bool_decide as Hst; [done|]. simpl.
    rewrite list_insert_insert_eq.
    assert (set_status (set_status b "available") "issued" = b) as ->.
    { destruct Hb as [?|Hb]; [done|]. destruct b; simpl in *. by subst. }
    rewrite (list_insert_id (books self) i b Hi). by destruct self.
Qed.

Lemma issue_and_return_undo_each_other_witness :
  let dune := Book_new "Dune" "Herbert" "111" "available" in
  let emma := Book_new "Emma" "Austen" "222" "issued" in
  let self := mkInventory "catalog.json" [dune; emma] in
  return_book_by_isbn (issue_book_by_isbn self "111").2 "111" = (true, self)
  /\ issue_book_by_isbn (return_book_by_isbn self "222").2 "222" = (true, self).
Proof.
  intros dune emma self. split.
  - apply (proj1 (issue_and_return_undo_each_other self "111")). reflexivity.
  - apply (proj2 (issue_and_return_undo_each_other self "222")); [|reflexivity].
    repeat (apply Forall_cons_2; [evaluated|]). apply Forall_nil_2.
Defined.

Lemma write_back_same_field {A} (f : Book -> A) (bs : list Book) i b b' :
  bs !! i = Some b -> f b' = f b -> f <$> <[i := b']> bs = f <$> bs.
Proof.
  intros Hi Hsame. rewrite list_fmap_insert, Hsame.
  apply list_insert_id. by rewrite list_lookup_fmap, Hi.
Qed.

Lemma issue_or_return_result b b' :
  b' = (issue b).2 \/ b' = (return_book b).2 ->
  title b' = title b /\ author b' = author b /\ isbn b' = isbn b.
Proof.
  unfold issue, return_book. intros [-> | ->]; by case_match.
Qed.

(** [issue_book_by_isbn] and [return_book_by_isbn] leave the path, the
    number of records and every title, author and ISBN as they were, in
    order; all records but at most one are unchanged. *)
Theorem issue_and_return_touch_one_status self s inv :
  inv = (issue_book_by_isbn self s).2 \/ inv = (return_book_by_isbn self s).2 ->
  catalog_path inv = catalog_path self
  /\ List.length (books inv) = List.length (books self)
  /\ title <$> books inv = title <$> books self
  /\ author <$> books inv = author <$> books self
  /\ isbn <$> books inv = isbn <$> books self
  /\ exists i, forall j, j <> i -> books inv !! j = books self !! j.
Proof.
  intros Hinv.
  assert (inv = self
          \/ exists i b b', books self !! i = Some b
               /\ (b' = (issue b).2 \/ b' = (return_book b).2)
               /\ inv = set_books self (<[i := b']> (books self)))
    as [->|(i & b & b' & Hi & Hb' & ->)].
  { unfold issue_book_by_isbn, return_book_by_isbn in Hinv.
    destruct (search_by_isbn self s) as [[i b]|] eqn:Hfind; [|left; tauto].
    apply search_by_isbn_Some in Hfind as (Hi & _).
    right. exists i, b. destruct Hinv as [-> | ->]; simpl; eauto 6. }
  - split_and!; try done. by exists 0.
  - apply issue_or_return_result in Hb' as (Ht & Ha & Hs). simpl.
    split_and!; [done|by rewrite length_insert|by eapply write_back_same_field..|].
    exists i. intros j Hj. by apply list_lookup_insert_ne.
Qed.

Lemma issue_and_return_touch_one_status_witness :
  let dune := Book_new "Dune" "Herbert" "111" "available" in
  let emma := Book_new "Emma" "Austen" "222" "issued" in
  let self := mkInventory "catalog.json" [dune; emma] in
  isbn <$> books (issue_book_by_isbn self "111").2 = ["111"; "222"].
Proof.
  intros dune emma self.
  refine (proj1 (proj2 (proj2 (proj2 (proj2
            (issue_and_return_touch_one_status self "111"
               (issue_book_by_isbn self "111").2 _)))))).
  left. reflexivity.
Defined.

End inventory_operations.

(** ** Reading and writing the catalog *)

Section catalog_file.
Import Lab3.

(** Whatever book [from_dict] builds, [to_dict] followed by [from_dict]
    gives that book back. *)
Theorem from_dict_then_to_dict_then_from_dict data b :
  from_dict data = Ok b -> from_dict (to_dict b) = Ok b.
Proof. intros Hb. by apply from_dict_to_dict, (from_dict_constructed data). Qed.

Lemma from_dict_then_to_dict_then_from_dict_witness :
  let entry := JDict (<["title" := JStr "  Dune "]> (<["status" := JStr "lost"]> ∅)) in
  from_dict (to_dict (Book_new "Dune" "" "" "available"))
  = Ok (Book_new "Dune" "" "" "available").
Proof.
  intros entry.
  apply (from_dict_then_to_dict_then_from_dict entry). reflexivity.
Defined.

(** The fields of the book [from_dict] builds from a dict: the trimmed
    string under the key, and the empty string when the dict has no
    [title], [author] or [isbn]. *)
Theorem from_dict_reads_trimmed_fields d b :
  from_dict (JDict d) = Ok b ->
  (d !! "title" = None -> title b = "")
  /\ (d !! "author" = None -> author b = "")
  /\ (d !! "isbn" = None -> isbn b = "")
  /\ (forall s, d !! "title" = Some (JStr s) -> title b = Py.strip s)
  /\ (forall s, d !! "author" = Some (JStr s) -> author b = Py.strip s)
  /\ (forall s, d !! "isbn" = Some (JStr s) -> isbn b = Py.strip s).
Proof.
  unfold from_dict, get, bind. intros Hb.
  destruct (d !! "title") as [[]|] eqn:Ht; simpl in Hb; try done;
  destruct (d !! "author") as [[]|] eqn:Ha; simpl in Hb; try done;
  destruct (d !! "isbn") as [[]|] eqn:Hi; simpl in Hb; try done;
  destruct (strip (default (JStr "available") (d !! "status"))); simpl in Hb;
    try done; simplify_eq; simpl;
  rewrite ?strip_idem; split_and!; (done || (intros; by simplify_eq)).
Qed.

Lemma from_dict_reads_trimmed_fields_witness :
  let b := Book_new "Dune" "" "" "available" in
  title b = Py.strip "  Dune " /\ isbn b = "".
Proof.
  intros b.
  assert (from_dict (JDict (<["title" := JStr "  Dune "]> ∅)) = Ok b) as Hb
    by (vm_compute; reflexivity).
  destruct (from_dict_reads_trimmed_fields _ b Hb) as (_ & _ & Hi & Ht & _).
  split; [by apply (Ht "  Dune ") | by apply Hi].
Defined.

Lemma from_dict_not_a_dict data :
  (forall d, data <> JDict d) -> exists e, from_dict data = Raise e.
Proof.
  intros Hd. unfold from_dict, get. destruct data; simpl; eauto.
  by edestruct Hd.
Qed.

Lemma from_dict_field_not_a_string d k v :
  k ∈ ["title"; "author"; "isbn"; "status"] ->
  d !! k = Some v -> (forall s, v <> JStr s) ->
  exists e, from_dict (JDict d) = Raise e.
Proof.
  intros Hk Hv Hns.
  destruct (from_dict (JDict d)) as [b|e] eqn:Hb; [|eauto].
  exfalso. unfold from_dict, get, bind in Hb.
  repeat case_match; simplify_eq.
  rewrite !elem_of_cons, elem_of_nil in Hk.
  destruct Hk as [->|[->|[->|[->|[]]]]];
    match goal with
    | H : strip (default _ (d !! ?key)) = Ok _, Hv : d !! ?key = Some _ |- _ =>
        rewrite Hv in H; destruct v; simplify_eq; by edestruct Hns
    end.
Qed.

Lemma comprehension_raises entries entry e :
  entry ∈ entries -> from_dict entry = Raise e ->
  exists e', comprehension from_dict entries = Raise e'.
Proof.
  induction 1 as [entry entries|entry other entries _ IH]; intros He; simpl.
  - rewrite He. simpl. eauto.
  - destruct (from_dict other); simpl; [|eauto].
    destruct (IH He) as [e' ->]. simpl. eauto.
Qed.

(** One entry of the file that is not an object, or that holds something
    other than a string under one of the four keys, makes [load] give up
    the whole file: the catalog is empty, whatever the other entries are,
    and an error is logged. *)
Theorem load_gives_up_on_one_bad_entry fs self entries entry :
  on_read (fs (catalog_path self)) = Holds (Document (JList entries)) ->
  entry ∈ entries ->
  (forall d, entry <> JDict d)
  \/ (exists d k v, entry = JDict d /\ k ∈ ["title"; "author"; "isbn"; "status"]
        /\ d !! k = Some v /\ forall s, v <> JStr s) ->
  exists msg,
    load fs self
    = Ok (set_books self [], [(ERROR, "Failed to load catalog: " +:+ msg)]).
Proof.
  intros Hfile Hin Hbad.
  assert (exists e, from_dict entry = Raise e) as [e He].
  { destruct Hbad as [Hd|(d & k & v & -> & Hk & Hv & Hns)].
    - by apply from_dict_not_a_dict.
    - by eapply from_dict_field_not_a_string. }
  destruct (comprehension_raises entries entry e Hin He) as [e' He'].
  exists (str_exc e'). unfold load, load_try. rewrite Hfile, He'. done.
Qed.

Lemma load_gives_up_on_one_bad_entry_witness :
  let good := to_dict (Book_new "Dune" "Herbert" "111" "available") in
  let bad := JDict (<["title" := JStr "Emma"]> (<["isbn" := JInt 222]> ∅)) in
  let fs : filesystem := fun _ => mkNode (Holds (Document (JList [good; bad]))) None in
  exists msg,
    load fs (__init__ "catalog.json")
    = Ok (__init__ "catalog.json", [(ERROR, "Failed to load catalog: " +:+ msg)]).
Proof.
  intros good bad fs.
  apply (load_gives_up_on_one_bad_entry fs (__init__ "catalog.json") [good; bad] bad).
  - reflexivity.
  - apply list_elem_of_further, list_elem_of_here.
  - right. exists (<["title" := JStr "Emma"]> (<["isbn" := JInt 222]> ∅)), "isbn", (JInt 222).
    split_and!; [reflexivity| |reflexivity|discriminate].
    apply list_elem_of_further, list_elem_of_further, list_elem_of_here.
Defined.

(** Whatever the file holds, the books [load] leaves in the catalog are
    books as the constructor makes them: trimmed title, author and ISBN,
    and one of the two statuses.  The path stays, and the books held
    before the call play no part. *)
Theorem load_leaves_constructed_books fs self inv logs :
  load fs self = Ok (inv, logs) ->
  catalog_path inv = catalog_path self
  /\ Forall constructed (books inv)
  /\ forall bs, load fs (set_books self bs) = Ok (inv, logs).
Proof.
  intros Hload. pose proof Hload as Hload'.
  apply load_books in Hload' as [Hpath Hbooks]. split_and!; [done| |].
  - destruct Hbooks as [->|[logs' Htry]]; [constructor|].
    by eapply load_try_constructed.
  - intros bs. by destruct self.
Qed.

Lemma load_leaves_constructed_books_witness :
  let entry := JDict (<["title" := JStr "  Dune "]> (<["status" := JStr "lost"]> ∅)) in
  let fs : filesystem := fun _ => mkNode (Holds (Document (JList [entry]))) None in
  Forall constructed (books (mkInventory "catalog.json" [Book_new "Dune" "" "" "available"])).
Proof.
  intros entry fs.
  refine (proj1 (proj2 (load_leaves_constructed_books fs (__init__ "catalog.json")
            (mkInventory "catalog.json" [Book_new "Dune" "" "" "available"])
            [(INFO, "Loaded 1 books from catalog.")] _))).
  reflexivity.
Defined.




End catalog_file.

(** ** More on searching by title *)

Section title_search.
Import Lab3.

Lemma lstrip_suffix s : exists pre, s = pre +:+ Py.lstrip s.
Proof.
  induction s as [|c s [pre IH]]; simpl; [by exists EmptyString|].
  destruct (Py.isspace c).
  - exists (String c pre). by rewrite app_cons, <- IH.
  - by exists EmptyString.
Qed.

Lemma rstrip_prefix s : exists suf, s = Py.rstrip s +:+ suf.
Proof.
  induction s as [|c s [suf IH]]; simpl; [by exists EmptyString|].
  destruct (Py.rstrip s) as [|d r] eqn:Hr.
  - destruct (Py.isspace c).
    + by exists (String c s).
    + exists s. by rewrite app_cons, app_nil.
  - exists suf. by rewrite app_cons, <- IH.
Qed.

Lemma strip_substring s : exists pre suf, s = pre +:+ Py.strip s +:+ suf.
Proof.
  unfold Py.strip. destruct (lstrip_suffix s) as [pre Hpre].
  destruct (rstrip_prefix (Py.lstrip s)) as [suf Hsuf].
  exists pre, suf. by rewrite <- Hsuf.
Qed.

Lemma lower_app s t : Py.lower (s +:+ t) = Py.lower s +:+ Py.lower t.
Proof.
  induction s as [|c s IH]; [done|].
  rewrite app_cons. simpl. by rewrite IH, app_cons.
Qed.

Lemma contains_empty t : Py.contains EmptyString t = true.
Proof. by destruct t. Qed.

Lemma filter_all {A} (f : A -> bool) l :
  (forall x, x ∈ l -> f x = true) -> List.filter f l = l.
Proof.
  induction l as [|x l IH]; intros Hf; simpl; [done|].
  rewrite Hf by apply list_elem_of_here.
  f_equal. apply IH. intros y Hy. by apply Hf, list_elem_of_further.
Qed.

(** A query of white space only selects the whole catalog: once trimmed
    it is the empty string, which is part of every title. *)
Theorem search_by_title_blank_query_gives_all self q :
  Py.strip q = "" -> search_by_title self q = books self.
Proof.
  intros Hq. unfold search_by_title. rewrite Hq. simpl.
  apply filter_all. intros b _. apply contains_empty.
Qed.

Lemma search_by_title_blank_query_gives_all_witness :
  let self := mkInventory "catalog.json"
                [Book_new "Dune" "Herbert" "111" "available";
                 Book_new "Emma" "Austen" "222" "issued"] in
  search_by_title self "   " = books self.
Proof.
  intros self. apply (search_by_title_blank_query_gives_all self "   ").
  reflexivity.
Defined.

Lemma elem_of_filter_bool {A} (f : A -> bool) l x :
  x ∈ List.filter f l <-> x ∈ l /\ f x = true.
Proof. rewrite !list_elem_of_In. apply filter_In. Qed.

(** Every book of the catalog is among the results of the search for its
    own title, in whatever case the title is typed; and every result is a
    book of the catalog. *)
Theorem search_by_title_finds_the_title_itself self b q :
  b ∈ books self ->
  Py.lower q = Py.lower (title b) ->
  b ∈ search_by_title self q
  /\ forall b', b' ∈ search_by_title self q -> b' ∈ books self.
Proof.
  intros Hb Hq. unfold search_by_title. split.
  - apply elem_of_filter_bool. split; [done|].
    apply contains_spec.
    destruct (strip_substring q) as (pre & suf & Hstrip).
    exists (Py.lower pre), (Py.lower suf).
    by rewrite <- Hq, Hstrip at 1; rewrite !lower_app.
  - intros b' Hb'. by apply elem_of_filter_bool in Hb' as [? _].
Qed.

Lemma search_by_title_finds_the_title_itself_witness :
  let dune := Book_new "Dune" "Herbert" "111" "available" in
  let emma := Book_new "Emma" "Austen" "222" "issued" in
  emma ∈ search_by_title (mkInventory "catalog.json" [dune; emma]) "EMMA".
Proof.
  intros dune emma.
  refine (proj1 (search_by_title_finds_the_title_itself
            (mkInventory "catalog.json" [dune; emma]) emma "EMMA" _ _)).
  - apply list_elem_of_further, list_elem_of_here.
  - reflexivity.
Defined.

End title_search.

(** ** More on the calorie tracker *)

Lemma loop_one_pass st inputs :
  Lab1.loop st inputs =
  match Lab1.iteration st inputs with
  | Lab1.Continue out st' rest =>
      (out ++ (Lab1.loop st' rest).1, (Lab1.loop st' rest).2)
  | Lab1.Stop out s => (out, s)
  end.
Proof. apply loop_unfold. Qed.

Section tracker_passes.
Import Lab1.

(** One pass of the menu either leaves the two variables as they are or
    adds one entry at the end of [calories] and its value to [total];
    entries already recorded are never changed or removed. *)
Theorem a_pass_appends_at_most_one_entry st inputs out st' rest :
  iteration st inputs = Continue out st' rest ->
  st' = st
  \/ exists name text cal,
       inputs = "1" :: name :: text :: rest
       /\ Py.int text = Some cal
       /\ calories st' = calories st ++ [cal]
       /\ total st' = (total st + cal)%Z.
Proof.
  unfold iteration. intros H.
  repeat (case_match || case_decide); simplify_eq; eauto 10.
Qed.

Lemma a_pass_appends_at_most_one_entry_witness :
  mkState [200; -50]%Z 150%Z = mkState [200]%Z 200%Z
  \/ exists name text cal,
       ["1"; "walk"; " -5_0 "; "3"] = "1" :: name :: text :: ["3"]
       /\ Py.int text = Some cal
       /\ [200; -50]%Z = [200%Z] ++ [cal]
       /\ 150%Z = (200 + cal)%Z.
Proof.
  apply (a_pass_appends_at_most_one_entry (mkState [200]%Z 200%Z)
           ["1"; "walk"; " -5_0 "; "3"]
           (menu ++ ["Enter meal name: "; "Enter calories for the meal: ";
                     print ["Meal added successfully!"]])).
  reflexivity.
Defined.

(** Option 4 ends the program normally: the last thing written is the
    goodbye line, and the lines typed after the 4 are never read. *)
Theorem exit_ends_the_program inputs st rest :
  loop_head inputs st ("4" :: rest) ->
  (main inputs).2 = Exited
  /\ exists out,
       (main inputs).1 = out ++ menu ++ [print ["Exiting the app. Stay healthy!"]].
Proof.
  intros Hhead. destruct (main_from_head _ _ _ Hhead) as [out Hmain].
  rewrite loop_one_pass in Hmain. simpl in Hmain. rewrite Hmain. simpl. eauto.
Qed.

Lemma exit_ends_the_program_witness :
  (main ["1"; "rice"; "200"; "4"; "1"; "dal"; "oops"]).2 = Exited.
Proof.
  refine (proj1 (exit_ends_the_program
            ["1"; "rice"; "200"; "4"; "1"; "dal"; "oops"]
            (mkState [200]%Z 200%Z) ["1"; "dal"; "oops"] _)).
  eapply head_next; [apply head_first | reflexivity].
Defined.

Lemma iteration_rest_in_inputs st inputs out st' rest x :
  iteration st inputs = Continue out st' rest -> x ∈ rest -> x ∈ inputs.
Proof.
  unfold iteration. intros H Hx.
  repeat (case_match || case_decide); simplify_eq;
    repeat (apply list_elem_of_further); done.
Qed.

Lemma loop_exited st inputs : (loop st inputs).2 = Exited -> "4" ∈ inputs.
Proof.
  remember (List.length inputs) as n eqn:Hn.
  revert st inputs Hn. induction (lt_wf n) as [n _ IH]. intros st inputs -> Hexit.
  rewrite loop_one_pass in Hexit.
  destruct (iteration st inputs) as [out st' rest|out s] eqn:Hit; simpl in Hexit.
  - eapply iteration_rest_in_inputs; [exact Hit|].
    eapply IH; [|reflexivity|exact Hexit]. by eapply iteration_consumes.
  - unfold iteration in Hit.
    repeat (case_match || case_decide); simplify_eq. apply list_elem_of_here.
Qed.

(** The program ends normally only through option 4: if it ended that
    way, some line typed was exactly "4".  Otherwise it ends with an
    exception that nothing catches. *)
Theorem normal_end_needs_option_4 inputs :
  ((main inputs).2 = Exited -> "4" ∈ inputs)
  /\ ("4" ∉ inputs -> exists e, (main inputs).2 = Uncaught e).
Proof.
  assert ((main inputs).2 = Exited -> "4" ∈ inputs) as Hexit.
  { unfold main. simpl. apply loop_exited. }
  split; [done|]. intros Hno.
  destruct (main inputs).2 as [|e] eqn:Hend; [by destruct Hno; apply Hexit | eauto].
Qed.

Lemma normal_end_needs_option_4_witness :
  exists e, (main ["1"; "rice"; "200"; "3"; " 4"]).2 = Uncaught e.
Proof.
  apply (proj2 (normal_end_needs_option_4 ["1"; "rice"; "200"; "3"; " 4"])).
  compute_done.
Defined.

End tracker_passes.

(** ** The command line of the library inventory *)

Opaque Lab3Main.iteration.

Lemma cli_loop_pass p inputs :
  Lab3Main.loop p inputs =
  match Lab3Main.iteration p inputs with
  | (out, inl a) => (out, Lab3Main.Uncaught a)
  | (out, inr (Lab3Main.Leave p', _)) => (out, Lab3Main.Exited p')
  | (out, inr (Lab3Main.Again p', rest)) =>
      (out ++ (Lab3Main.loop p' rest).1, (Lab3Main.loop p' rest).2)
  end.
Proof.
  funelim (Lab3Main.loop p inputs);
    match goal with H : Lab3Main.iteration _ _ = _ |- _ => by rewrite H end.
Qed.

Transparent Lab3Main.iteration.

Section command_line.
Import Lab3 Lab3Main.



(** What the value of console code satisfies, when it returns. *)
Definition yields {A} (P : A -> Prop) (m : console A) : Prop :=
  forall inputs out a rest, m inputs = (out, inr (a, rest)) -> P a.

(** Console code that ends early only at the end of the input. *)
Definition only_eof {A} (m : console A) : Prop :=
  forall inputs out a, m inputs = (out, inl a) -> a = EOFError.

Lemma yields_ret {A} (P : A -> Prop) a : P a -> yields P (ret a).
Proof. intros Ha inputs out a' rest H. unfold ret in H. by simplify_eq. Qed.

Lemma yields_raise {A} (P : A -> Prop) e : yields P (raise e).
Proof. intros inputs out a' rest H. unfold raise in H. by simplify_eq. Qed.

Lemma yields_and_then {A B} (P : B -> Prop) (m : console A) k :
  (forall a, yields P (k a)) -> yields P (and_then m k).
Proof.
  intros Hk inputs out b rest H. unfold and_then in H.
  destruct (m inputs) as [out1 [ab|[a rest1]]]; simplify_eq.
  destruct (k a rest1) as [out2 r] eqn:Hk1. simpl in *. simplify_eq.
  by eapply Hk.
Qed.

Lemma only_eof_ret {A} (a : A) : only_eof (ret a).
Proof. intros inputs out ab H. unfold ret in H. by simplify_eq. Qed.

Lemma only_eof_write lines : only_eof (write lines).
Proof. intros inputs out ab H. unfold write in H. by simplify_eq. Qed.

Lemma only_eof_input prompt : only_eof (input prompt).
Proof. intros [|l inputs] out ab H; unfold input in H; by simplify_eq. Qed.

Lemma only_eof_prompt_non_empty prompt_text : only_eof (prompt_non_empty prompt_text).
Proof.
  intros inputs. induction inputs as [|l inputs IH]; intros out ab H; simpl in H.
  - by simplify_eq.
  - case_decide; simplify_eq.
    destruct (prompt_non_empty prompt_text inputs) as [out' r] eqn:Hrec.
    simpl in *. subst r. by eapply IH.
Qed.

Lemma only_eof_and_then {A B} (m : console A) (k : A -> console B) :
  only_eof m -> (forall a, only_eof (k a)) -> only_eof (and_then m k).
Proof.
  intros Hm Hk inputs out ab H. unfold and_then in H.
  destruct (m inputs) as [out1 [ab1|[a rest1]]] eqn:Hm1; simplify_eq.
  - by eapply Hm.
  - destruct (k a rest1) as [out2 r] eqn:Hk1. simpl in *. simplify_eq.
    by eapply Hk.
Qed.

Lemma call_save_exec q : call_save q = Ok (exec q Save).
Proof.
  unfold call_save, exec, save.
  by destruct (save_try (files q) (inventory q)) as [[fs logs]|e].
Qed.

Lemma add_book_raises self book e inv :
  add_book self book = (Raise e, inv) ->
  inv = self /\ e = ValueError "A book with this ISBN already exists.".
Proof. unfold add_book. intros H. case_match; by simplify_eq. Qed.

Lemma load_returns fs self : exists inv logs, load fs self = Ok (inv, logs).
Proof. unfold load. destruct (load_try fs self) as [[bs logs]|e]; eauto. Qed.

Ltac eof_only :=
  repeat first
    [ apply only_eof_ret | apply only_eof_write | apply only_eof_input
    | apply only_eof_prompt_non_empty
    | apply only_eof_and_then; [|intros ?]
    | rewrite call_save_exec; simpl
    | case_decide ].

Lemma only_eof_iteration p : only_eof (iteration p).
Proof.
  unfold iteration, add_choice, issue_choice, return_choice, view_choice,
    search_choice.
  eof_only.
  destruct (add_book _ _) as [[[]|e] inv] eqn:Hadd.
  - eof_only.
  - apply add_book_raises in Hadd as [-> ->]. unfold except_ValueError. simpl.
    eof_only.
Qed.

Lemma loop_only_eof p inputs a :
  (loop p inputs).2 = Uncaught a -> a = EOFError.
Proof.
  remember (List.length inputs) as n eqn:Hn.
  revert p inputs Hn. induction (lt_wf n) as [n _ IH]. intros p inputs -> Hend.
  rewrite cli_loop_pass in Hend.
  destruct (iteration p inputs) as [out [ab|[[p'|p'] rest]]] eqn:Hit; simpl in Hend.
  - simplify_eq. by eapply only_eof_iteration.
  - eapply IH; [|reflexivity|exact Hend]. by eapply reads_some_iteration.
  - done.
Qed.

(** [main] ends in one of three ways.  When the log file cannot be opened
    it ends at once with that [OSError], having written nothing.
    Otherwise it ends by leaving the loop, or with the [EOFError] of an
    [input] that found no line: no error of the inventory - a duplicate
    ISBN, a catalog file that cannot be read or written - ends it. *)
Theorem main_ends_by_exit_or_end_of_input fs inputs :
  (on_write (fs LOG_FILE) = None ->
   (exists p, (main fs inputs).2 = Exited p)
   \/ (main fs inputs).2 = Uncaught EOFError)
  /\ (forall msg,
        on_write (fs LOG_FILE) = Some msg ->
        main fs inputs = ([], Uncaught (Raised (OSError msg)))).
Proof.
  unfold main, setup_logging. split.
  - intros ->. destruct (load_returns fs (__init__ CATALOG)) as (inv & logs & ->).
    destruct (loop _ inputs).2 as [p|a] eqn:Hend; [eauto|].
    right. f_equal. by eapply loop_only_eof.
  - by intros msg ->.
Qed.

Lemma main_ends_by_exit_or_end_of_input_witness :
  let fs : filesystem := fun _ => mkNode (ReadFails "Is a directory") (Some "Permission denied") in
  main fs ["1"; "Dune"; "Herbert"; "111"; "6"]
  = ([], Uncaught (Raised (OSError "Permission denied"))).
Proof.
  intros fs.
  apply (proj2 (main_ends_by_exit_or_end_of_input fs
                  ["1"; "Dune"; "Herbert"; "111"; "6"]) "Permission denied").
  reflexivity.
Defined.

(** What one pass does to the process: it is the effect of some of the
    operations, in a row; and either the catalog and the files are as
    before, or the last thing done was a [save]. *)
Definition pass_effect (p p' : process) : Prop :=
  (exists ops, p' = run p ops)
  /\ ((inventory p' = inventory p /\ files p' = files p)
      \/ exists ops, p' = exec (run p ops) Save).

Lemma pass_effect_same p : pass_effect p p.
Proof. split; [by exists [] | by left]. Qed.

Lemma pass_effect_saved p ops : pass_effect p (exec (run p ops) Save).
Proof. split; [exists (ops ++ [Save]); by rewrite run_snoc | right; eauto]. Qed.

Lemma yields_bind {A B} (P : A -> Prop) (Q : B -> Prop) (m : console A) k :
  yields P m -> (forall a, P a -> yields Q (k a)) -> yields Q (and_then m k).
Proof.
  intros Hm Hk inputs out b rest H. unfold and_then in H.
  destruct (m inputs) as [out1 [ab|[a rest1]]] eqn:Hm1; simplify_eq.
  destruct (k a rest1) as [out2 r] eqn:Hk1. simpl in *. simplify_eq.
  eapply Hk; [|exact Hk1]. by eapply Hm.
Qed.

Lemma yields_write_then {A} (P : A -> Prop) lines (m : console A) :
  yields P m -> yields P (and_then (write lines) (fun _ => m)).
Proof. intros Hm. by apply yields_and_then. Qed.

Lemma yields_saved (P : process -> Prop) q :
  P (exec q Save) -> yields P (saved (call_save q)).
Proof. intros HP. rewrite call_save_exec. by apply yields_ret. Qed.

Lemma yields_add_choice p : yields (pass_effect p) (add_choice p).
Proof.
  unfold add_choice.
  apply yields_and_then; intros t.
  apply yields_and_then; intros a.
  apply yields_and_then; intros i.
  destruct (add_book _ _) as [[[]|e] inv] eqn:Hadd.
  - rewrite call_save_exec. apply yields_write_then, yields_ret.
    replace inv with (add_book (inventory p) (Book_new3 t a i)).2
      by by rewrite Hadd.
    apply (pass_effect_saved p [AddBook t a i "available"]).
  - apply add_book_raises in Hadd as [-> ->]. unfold except_ValueError. simpl.
    apply yields_write_then, yields_ret. destruct p. apply pass_effect_same.
Qed.

Lemma yields_other_choices p :
  yields (pass_effect p) (issue_choice p)
  /\ yields (pass_effect p) (return_choice p)
  /\ yields (pass_effect p) (view_choice p)
  /\ yields (pass_effect p) (search_choice p).
Proof.
  unfold issue_choice, return_choice, view_choice, search_choice.
  split_and!.
  - apply yields_and_then; intros isbn_. apply yields_write_then, yields_saved.
    apply (pass_effect_saved p [IssueBook isbn_]).
  - apply yields_and_then; intros isbn_. apply yields_write_then, yields_saved.
    apply (pass_effect_saved p [ReturnBook isbn_]).
  - apply yields_write_then, yields_ret, pass_effect_same.
  - apply yields_and_then; intros sub. repeat case_decide.
    + apply yields_and_then; intros q.
      apply yields_write_then, yields_ret, pass_effect_same.
    + apply yields_and_then; intros q.
      apply yields_write_then, yields_ret, pass_effect_same.
    + apply yields_write_then, yields_ret, pass_effect_same.
Qed.

Lemma yields_iteration p :
  yields (fun n => pass_effect p (process_of n)) (iteration p).
Proof.
  unfold iteration. apply yields_write_then, yields_and_then. intros line.
  pose proof (yields_add_choice p) as Ha.
  destruct (yields_other_choices p) as (Hi & Hr & Hv & Hs).
  repeat case_decide;
    try (eapply yields_bind; [eassumption|intros p' Hp'; by apply yields_ret]).
  - apply yields_write_then.
    eapply yields_bind; [apply yields_saved, (pass_effect_saved p [])|].
    intros p' Hp'. by apply yields_ret.
  - apply yields_write_then, yields_ret, pass_effect_same.
Qed.

Lemma run_app p ops ops' : run p (ops ++ ops') = run (run p ops) ops'.
Proof. unfold run. apply fold_left_app. Qed.

(** The process at every entry of the loop comes from the fresh process
    by operations of the inventory, the first of them [load]. *)
Lemma session_head_run fs inputs p unread :
  session_head fs inputs p unread ->
  exists ops, p = run (start fs CATALOG) (Load :: ops).
Proof.
  induction 1 as [inv logs _ Hload|p unread out p' rest _ [ops ->] Hit].
  - exists []. unfold run, start. simpl. by rewrite Hload.
  - apply yields_iteration in Hit as [[ops' Hp'] _]. simpl in Hp'. subst p'.
    exists (ops ++ ops'). unfold run. simpl. by rewrite fold_left_app.
Qed.

Lemma run_unique fs path ops :
  loads_unique fs path ->
  NoDup (isbn <$> books (inventory (run (start fs path) ops)))
  /\ loads_unique (files (run (start fs path) ops)) path.
Proof.
  intros Hfile. induction ops as [|o ops IH] using rev_ind.
  - split; [constructor | done].
  - rewrite run_snoc. destruct IH as [Hnd Hfile'].
    apply exec_unique; auto using run_path, run_constructed.
Qed.

(** Whatever is typed at the menu, every time the loop of [main] is
    entered the catalog holds books as the constructor makes them; and
    when the catalog file found at the start loads to pairwise distinct
    ISBNs, so in particular when there is none, the ISBNs of the catalog
    are pairwise distinct. *)
Theorem menu_keeps_the_catalog_well_formed fs inputs p unread :
  session_head fs inputs p unread ->
  catalog_path (inventory p) = CATALOG
  /\ Forall constructed (books (inventory p))
  /\ (loads_unique fs CATALOG -> NoDup (isbn <$> books (inventory p))).
Proof.
  intros [ops ->]%session_head_run. split_and!.
  - apply run_path.
  - apply run_constructed.
  - intros Hfile. by apply run_unique.
Qed.

Lemma menu_keeps_the_catalog_well_formed_witness :
  let fs : filesystem := fun _ => mkNode NoFile None in
  let dune := Book_new3 "Dune" "Herbert" "111" in
  Forall constructed [dune] /\ NoDup (isbn <$> [dune]).
Proof.
  intros fs dune.
  assert (session_head fs ["1"; " Dune"; "Herbert"; "111 "; "1"; "Emma"; "Austen"; "111"]
            (exec (exec (exec (start fs CATALOG) Load)
                     (AddBook "Dune" "Herbert" "111" "available")) Save)
            ["1"; "Emma"; "Austen"; "111"]) as Hhead.
  { eapply session_next; [apply session_first; reflexivity|]. reflexivity. }
  destruct (menu_keeps_the_catalog_well_formed _ _ _ _ Hhead) as (_ & Hc & Hu).
  split; [exact Hc|]. apply Hu. intros bs logs H. vm_compute in H.
  injection H as <- _. constructor.
Defined.







Lemma main_from_session_head fs inputs p unread :
  session_head fs inputs p unread ->
  exists out, main fs inputs = (out ++ (loop p unread).1, (loop p unread).2).
Proof.
  induction 1 as [inv logs Hsetup Hload|p unread out p' rest _ [out0 IH] Hit].
  - exists []. unfold main. rewrite Hsetup, Hload. simpl. by destruct (loop _ _).
  - exists (out0 ++ out). rewrite IH, (cli_loop_pass p unread), Hit. simpl.
    by rewrite (assoc_L (++)).
Qed.

(** A line that trims to 6 ends the program: "Exiting." is the last thing
    written, the catalog is saved once more, and [main] leaves the loop
    with the catalog as it was; the lines typed after it are not read. *)
Theorem choosing_exit_saves_and_leaves fs inputs p line rest :
  session_head fs inputs p (line :: rest) ->
  Py.strip line = "6" ->
  inventory (exec p Save) = inventory p
  /\ exists out,
       main fs inputs = (out ++ [print "Exiting."], Exited (exec p Save)).
Proof.
  intros Hhead Hline. split.
  { simpl. by destruct (save _ _) as [[fs' logs]|]. }
  destruct (main_from_session_head _ _ _ _ Hhead) as [out0 Hmain].
  assert (iteration p (line :: rest)
          = (menu ++ ["Enter choice (1-6): "; print "Exiting."],
             inr (Leave (exec p Save), rest))) as Hit.
  { unfold iteration, and_then, write, input. simpl. rewrite Hline.
    rewrite !decide_False by done. rewrite decide_True by done.
    unfold and_then, write. simpl. by rewrite call_save_exec. }
  rewrite cli_loop_pass, Hit in Hmain. simpl in Hmain.
  exists (out0 ++ menu ++ ["Enter choice (1-6): "]).
  rewrite Hmain. f_equal. by rewrite <- !(assoc_L (++)).
Qed.

Lemma choosing_exit_saves_and_leaves_witness :
  let fs : filesystem := fun _ => mkNode NoFile None in
  exists out,
    main fs [" 6 "; "1"; "Dune"]
    = (out ++ [print "Exiting."], Exited (exec (exec (start fs CATALOG) Load) Save)).
Proof.
  intros fs.
  refine (proj2 (choosing_exit_saves_and_leaves fs [" 6 "; "1"; "Dune"]
                   (exec (start fs CATALOG) Load) " 6 " ["1"; "Dune"] _ _)).
  - apply session_first; reflexivity.
  - reflexivity.
Defined.

Lemma prompt_non_empty_non_blank prompt_text line rest :
  Py.strip line <> "" ->
  prompt_non_empty prompt_text (line :: rest)
  = ([prompt_text], inr (Py.strip line, rest)).
Proof. intros Hline. simpl. by rewrite decide_False. Qed.

(** Option 1 with an ISBN that, trimmed, is already in the catalog: the
    three answers are read, the duplicate error is written, and the pass
    ends with the process as it was - the catalog is unchanged and nothing
    is saved or logged. *)
Theorem menu_add_refuses_a_duplicate p line t a i rest b :
  Py.strip line = "1" ->
  Py.strip t <> "" -> Py.strip a <> "" -> Py.strip i <> "" ->
  b ∈ books (inventory p) -> isbn b = Py.strip i ->
  iteration p (line :: t :: a :: i :: rest)
  = (menu ++ ["Enter choice (1-6): "; "Title: "; "Author: "; "ISBN: ";
              print "Error: A book with this ISBN already exists."],
     inr (Again p, rest)).
Proof.
  intros Hline Ht Ha Hi Hb Hsame.
  assert (add_book (inventory p) (Book_new3 (Py.strip t) (Py.strip a) (Py.strip i))
          = (Raise (ValueError "A book with this ISBN already exists."),
             inventory p)) as Hadd.
  { apply (add_book_duplicate _ _ b); [|done|]; simpl; by rewrite strip_idem. }
  unfold iteration, and_then at 1 2, write, input. simpl. rewrite Hline.
  rewrite decide_True by done.
  unfold add_choice, and_then.
  rewrite !prompt_non_empty_non_blank by done. rewrite Hadd. simpl.
  by destruct p.
Qed.

Lemma menu_add_refuses_a_duplicate_witness :
  let fs : filesystem := fun _ => mkNode NoFile None in
  let p := mkProcess fs (mkInventory CATALOG [Book_new3 "Dune" "Herbert" "111"]) [] in
  iteration p ["1 "; "Dune Messiah"; "Herbert"; " 111"; "4"]
  = (menu ++ ["Enter choice (1-6): "; "Title: "; "Author: "; "ISBN: ";
              print "Error: A book with this ISBN already exists."],
     inr (Again p, ["4"])).
Proof.
  intros fs p.
  apply (menu_add_refuses_a_duplicate p "1 " "Dune Messiah" "Herbert" " 111" ["4"]
           (Book_new3 "Dune" "Herbert" "111")).
  - reflexivity.
  - discriminate.
  - discriminate.
  - discriminate.
  - apply list_elem_of_here.
  - reflexivity.
Defined.

End command_line.
